(** * Plate text resolver of [src/flow_testing.ipynb]

    A shallow embedding of the three helper functions of the notebook,
    [extract_indonesian_plate_format], [get_region_info] and
    [process_alpr_results], together with the pieces of the Python runtime
    they call: [str.upper], [re.sub] with the pattern [\s+], [re.match] with
    the plate pattern, [str.join], f-strings, dictionary membership and
    subscription, and truthiness of [str | None].

    Python strings are sequences of Unicode code points, so a string is a
    list of code points here.  The ASCII range, where all plates live, is
    modelled in full.  Outside ASCII the behaviour of [str.upper] and of the
    class [\d] depends on the Unicode database of the interpreter; that
    database is a parameter ([UnicodeData]) of every definition that
    consults it, and every theorem holds for any database. *)

From Stdlib Require Import Ascii String QArith.
From stdpp Require Import base numbers list option gmap.
Close Scope Q_scope.

(** ** Python strings *)

Definition codepoint := N.
Definition pystr := list codepoint.

(** A string literal of the source, as code points. *)
Fixpoint str (s : string) : pystr :=
  match s with
  | EmptyString => []
  | String a s' => N_of_ascii a :: str s'
  end.
Arguments str s%_string.

Definition in_range (lo hi c : codepoint) : bool :=
  ((lo <=? c) && (c <=? hi))%N.
Arguments in_range (lo hi c)%_N.

(** What the interpreter calls whitespace ([str.isspace], and [\s] in a
    [str] pattern): the ASCII separators and controls, NEL, NBSP and the
    Unicode space separators. *)
Definition is_space (c : codepoint) : bool :=
  in_range 9 13 c || in_range 28 32 c
  || (c =? 133)%N || (c =? 160)%N || (c =? 5760)%N
  || in_range 8192 8202 c
  || (c =? 8232)%N || (c =? 8233)%N || (c =? 8239)%N
  || (c =? 8287)%N || (c =? 12288)%N.

Definition is_ascii (c : codepoint) : bool := (c <? 128)%N.
Definition is_ascii_upper (c : codepoint) : bool := in_range 65 90 c.
Definition is_ascii_lower (c : codepoint) : bool := in_range 97 122 c.
Definition is_ascii_digit (c : codepoint) : bool := in_range 48 57 c.
Definition is_ascii_alnum (c : codepoint) : bool :=
  is_ascii_upper c || is_ascii_lower c || is_ascii_digit c.

(** The class [[A-Z0-9]] of the invariant the specification states for
    normalized text. *)
Definition is_AZ09 (c : codepoint) : bool :=
  is_ascii_upper c || is_ascii_digit c.

Definition ascii_upper (c : codepoint) : codepoint :=
  if is_ascii_lower c then (c - 32)%N else c.

(** The part of the interpreter's Unicode database the code depends on,
    for code points outside ASCII. *)
Record UnicodeData := {
  (** full upper-case mapping of a cased code point (one to three code
      points, e.g. U+00DF to "SS") *)
  ud_upper : codepoint → pystr;
  (** membership in the category of decimal digits *)
  ud_decimal : codepoint → bool
}.

Section Unicode.
Context (U : UnicodeData).

(** [\d] in a [str] pattern compiled without [re.ASCII]. *)
Definition is_digit (c : codepoint) : bool :=
  if is_ascii c then is_ascii_digit c else ud_decimal U c.

(** [str.upper] of one code point.  Whitespace and decimal digits carry
    no case mapping in any version of the database. *)
Definition upper_cp (c : codepoint) : pystr :=
  if is_ascii c then [ascii_upper c]
  else if is_space c || ud_decimal U c then [c]
  else ud_upper U c.

(** [text.upper()]: the mapping is applied code point by code point. *)
Fixpoint upper (text : pystr) : pystr :=
  match text with
  | [] => []
  | c :: text' => upper_cp c ++ upper text'
  end.
End Unicode.

(** ** The fragment of [re] the source uses *)

(** [re.sub(r'\s+', '', s)]: every maximal run of whitespace is replaced
    by the empty string, so exactly the whitespace code points go. *)
Fixpoint re_sub_spaces (s : pystr) : pystr :=
  match s with
  | [] => []
  | c :: s' => if is_space c then re_sub_spaces s' else c :: re_sub_spaces s'
  end.

Inductive charclass :=
  | Range (lo hi : codepoint)   (* [lo-hi] *)
  | Digit.                      (* \d *)
Arguments Range (lo hi)%_N.

(** The items a pattern is a sequence of. *)
Inductive item :=
  | Caret                                      (* ^ *)
  | Dollar                                     (* $ *)
  | GroupRep (cls : charclass) (lo hi : nat).  (* (cls{lo,hi}), capturing, greedy *)

(** Longest prefix of [s] inside a class. *)
Fixpoint run_length (cls : codepoint → bool) (s : pystr) : nat :=
  match s with
  | c :: s' => if cls c then S (run_length cls s') else 0
  | [] => 0
  end.

(** Backtracking over the length of a greedy repetition: try [lo + extra]
    code points first, then one fewer, down to [lo]. *)
Fixpoint try_lengths {A} (k : nat → option A) (lo extra : nat) : option A :=
  match k (lo + extra) with
  | Some r => Some r
  | None =>
      match extra with
      | 0 => None
      | S extra' => try_lengths k lo extra'
      end
  end.

(** [$] without [re.MULTILINE]: at the end of the string, or just before a
    newline that ends the string. *)
Definition at_end (s : pystr) : bool :=
  match s with
  | [] => true
  | [c] => (c =? 10)%N
  | _ => false
  end.

Section Matcher.
Context (U : UnicodeData).

Definition class_has (cls : charclass) (c : codepoint) : bool :=
  match cls with
  | Range lo hi => in_range lo hi c
  | Digit => is_digit U c
  end.

(** The matcher, at offset [pos] with [s] still to read and [groups]
    captured so far; on success the end offset and the groups. *)
Fixpoint match_items (p : list item) (pos : nat) (s : pystr)
    (groups : list pystr) : option (nat * list pystr) :=
  match p with
  | [] => Some (pos, groups)
  | Caret :: p' =>
      if (pos =? 0)%nat then match_items p' pos s groups else None
  | Dollar :: p' =>
      if at_end s then match_items p' pos s groups else None
  | GroupRep cls lo hi :: p' =>
      let avail := min hi (run_length (class_has cls) s) in
      if (avail <? lo)%nat then None
      else try_lengths
             (fun n => match_items p' (pos + n) (drop n s)
                         (groups ++ [take n s]))
             lo (avail - lo)
  end.

(** [re.match(pattern, s)]: a match object, as the list of its groups
    with group 0 (the whole match) first, or [None]. *)
Definition re_match (p : list item) (s : pystr) : option (list pystr) :=
  match match_items p 0 s [] with
  | Some (e, groups) => Some (take e s :: groups)
  | None => None
  end.
End Matcher.

(** ** Exceptions *)

(** The exceptions the operations used by the source can raise. *)
Inductive exn :=
  | KeyError (key : pystr)   (* d[k] with k not in d *)
  | IndexError.              (* m.group(i) with no group i *)

Inductive result (A : Type) :=
  | Ok (a : A)
  | Raise (e : exn).
Arguments Ok {A} a.
Arguments Raise {A} e.

Global Instance result_ret : MRet result := @Ok.
Global Instance result_bind : MBind result := λ A B f m,
  match m with
  | Ok a => f a
  | Raise e => Raise e
  end.

(** [m.group(i)] *)
Definition group (m : list pystr) (i : nat) : result pystr :=
  match m !! i with
  | Some g => Ok g
  | None => Raise IndexError
  end.

(** [sep.join(parts)] *)
Fixpoint join (sep : pystr) (parts : list pystr) : pystr :=
  match parts with
  | [] => []
  | [x] => x
  | x :: rest => x ++ sep ++ join sep rest
  end.

(** Truthiness of a value of type [str | None]: [None] and the empty
    string are false. *)
Definition truthy (x : option pystr) : bool :=
  match x with
  | Some (_ :: _) => true
  | _ => false
  end.

(** A [for] loop over a list whose body updates a state and may raise. *)
Fixpoint for_each {X S} (body : S → X → result S) (xs : list X) (st : S)
    : result S :=
  match xs with
  | [] => Ok st
  | x :: xs' => st' ← body st x; for_each body xs' st'
  end.

(** ** Global configuration of the notebook *)

(** A value of [cityCode_dict] is a string or a list of strings; the
    constructor records what [isinstance(regions, list)] inspects. *)
Inductive region_value :=
  | Single (name : pystr)
  | Multiple (names : list pystr).

Global Instance region_value_eq_dec : EqDecision region_value.
Proof. solve_decision. Defined.

Definition cityCode_entries : list (pystr * region_value) :=
  [
    (str "AA", Multiple [str "Purworejo"; str "Temanggung"; str "Magelang";
                         str "Wonosobo"; str "Kebumen"]);
    (str "B",  Multiple [str "DKI Jakarta"; str "Bekasi"; str "Depok";
                         str "Tangerang"]);
    (str "D",  Multiple [str "Bandung"; str "Bandung Barat"; str "Cimahi"]);
    (str "AG", Multiple [str "Tulungagung"; str "Kediri"; str "Blitar";
                         str "Trenggalek"; str "Nganjuk"]);
    (str "BA", Single (str "Sumatera Barat"));
    (str "BP", Single (str "Kepulauan Riau"));
    (str "DK", Single (str "Bali"));
    (str "H",  Single (str "Semarang"));
    (str "L",  Single (str "Surabaya"));
    (str "M",  Single (str "Madura"));
    (str "N",  Multiple [str "Malang"; str "Pasuruan"; str "Probolinggo";
                         str "Batu"; str "Lumajang"]);
    (str "PA", Single (str "Papua"));
    (str "PB", Single (str "Papua Barat"));
    (str "S",  Multiple [str "Tuban"; str "Jombang"; str "Bojonegoro";
                         str "Lamongan"; str "Mojokerto"]);
    (str "W",  Multiple [str "Gresik"; str "Sidoarjo"])
  ].

Definition cityCode_dict : gmap pystr region_value :=
  list_to_map cityCode_entries.

(** [k in d] and [d[k]] *)
Definition dict_contains {V} (d : gmap pystr V) (k : pystr) : bool :=
  match d !! k with
  | Some _ => true
  | None => false
  end.

Definition dict_getitem {V} (d : gmap pystr V) (k : pystr) : result V :=
  match d !! k with
  | Some v => Ok v
  | None => Raise (KeyError k)
  end.

(** ** Helper functions of the notebook *)

(** [r'^([A-Z]{1,2})(\d{1,4})([A-Z]{1,3})$'] *)
Definition pattern : list item :=
  [ Caret;
    GroupRep (Range 65 90) 1 2;
    GroupRep Digit 1 4;
    GroupRep (Range 65 90) 1 3;
    Dollar ].

(** The three groups of a match. *)
Record ParsedPlate := {
  regionCode : pystr;
  number : pystr;
  suffix : pystr
}.

(** [f"{region_code} {numbers} {suffix}"] *)
Definition formatPlate (p : ParsedPlate) : pystr :=
  regionCode p ++ str " " ++ number p ++ str " " ++ suffix p.

Definition sentinel : pystr := str "Region not found in database".

Definition get_region_info (region_code : pystr) : result pystr :=
  if dict_contains cityCode_dict region_code then
    regions ← dict_getitem cityCode_dict region_code;
    match regions with
    | Multiple names => Ok (join (str ", ") names)
    | Single name => Ok name
    end
  else Ok sentinel.

Section Resolver.
Context (U : UnicodeData).

(** [clean_text = re.sub(r'\s+', '', text.upper())] *)
Definition normalize (text : pystr) : pystr :=
  re_sub_spaces (upper U text).

Definition extract_indonesian_plate_format (text : pystr)
    : result (option pystr * option pystr) :=
  let clean_text := re_sub_spaces (upper U text) in
  match re_match U pattern clean_text with
  | Some m =>
      region_code ← group m 1;
      numbers ← group m 2;
      suffix ← group m 3;
      let formatted_plate :=
        region_code ++ str " " ++ numbers ++ str " " ++ suffix in
      Ok (Some formatted_plate, Some region_code)
  | None => Ok (None, None)
  end.

(** The matching step of [extract_indonesian_plate_format] on its own:
    [re.match] on cleaned text, then the three [group] calls. *)
Definition parse (clean_text : pystr) : result (option ParsedPlate) :=
  match re_match U pattern clean_text with
  | Some m =>
      region_code ← group m 1;
      numbers ← group m 2;
      suffix ← group m 3;
      Ok (Some {| regionCode := region_code; number := numbers;
                  suffix := suffix |})
  | None => Ok None
  end.
End Resolver.

(** An element of [alpr_instance.predict(frame)].  The confidence and the
    bounding box are only copied, so their types are left open. *)
Module OcrResult.
Record t (Conf : Type) := { text : pystr; confidence : Conf }.
Arguments text {Conf} _.
Arguments confidence {Conf} _.
End OcrResult.

Record prediction (Conf BBox : Type) := {
  ocr : OcrResult.t Conf;
  bbox_xyxy : BBox
}.
Arguments ocr {Conf BBox} _.
Arguments bbox_xyxy {Conf BBox} _.

(** The dictionary [plate_info], with its six keys. *)
Record plate_info (Conf BBox : Type) := {
  original_text : pystr;
  formatted_plate : pystr;
  region_code : pystr;
  region_info : pystr;
  confidence : Conf;
  bbox : BBox
}.
Arguments original_text {Conf BBox} _.
Arguments formatted_plate {Conf BBox} _.
Arguments region_code {Conf BBox} _.
Arguments region_info {Conf BBox} _.
Arguments confidence {Conf BBox} _.
Arguments bbox {Conf BBox} _.

Section Frame.
Context (U : UnicodeData) {Conf BBox : Type}.

(** The body of the loop up to [append]: the record for one prediction,
    or nothing when the [if] is not taken. *)
Definition process_detection (p : prediction Conf BBox)
    : result (option (plate_info Conf BBox)) :=
  let ocr_text := OcrResult.text (ocr p) in
  '(formatted_plate, region_code) ←
    extract_indonesian_plate_format U ocr_text;
  if truthy formatted_plate && truthy region_code then
    match formatted_plate, region_code with
    | Some formatted_plate, Some region_code =>
        region_info ← get_region_info region_code;
        Ok (Some {| original_text := ocr_text;
                    formatted_plate := formatted_plate;
                    region_code := region_code;
                    region_info := region_info;
                    confidence := OcrResult.confidence (ocr p);
                    bbox := bbox_xyxy p |})
    | _, _ => Ok None
    end
  else Ok None.

(** One iteration: [detected_plates.append(plate_info)] when there is a
    record. *)
Definition loop_body (detected_plates : list (plate_info Conf BBox))
    (p : prediction Conf BBox) : result (list (plate_info Conf BBox)) :=
  r ← process_detection p;
  match r with
  | Some plate_info => Ok (detected_plates ++ [plate_info])
  | None => Ok detected_plates
  end.

(** [process_alpr_results], from the list [predictions] on. *)
Definition process_alpr_results (predictions : list (prediction Conf BBox))
    : result (list (plate_info Conf BBox)) :=
  for_each loop_body predictions [].
End Frame.

(** A detection with the given text, confidence and bounding box. *)
Definition detection {Conf BBox : Type} (raw : pystr) (conf : Conf)
    (box : BBox) : prediction Conf BBox :=
  {| ocr := {| OcrResult.text := raw; OcrResult.confidence := conf |};
     bbox_xyxy := box |}.

(** The operation the specification calls processDetection: the body of
    the loop of [process_alpr_results], run on one detection. *)
Definition processDetection (U : UnicodeData) {Conf BBox : Type}
    (raw : pystr) (conf : Conf) (box : BBox)
    : result (option (plate_info Conf BBox)) :=
  process_detection U (detection raw conf box).

(** A fragment of the Unicode database, enough to run the code on inputs
    outside ASCII: the cased letters of Latin-1, dotless i and long s, and
    three blocks of decimal digits. *)
Definition unicode_fragment : UnicodeData := {|
  ud_upper c :=
    if in_range 224 254 c && negb (c =? 247)%N then [(c - 32)%N]
    else if (c =? 223)%N then [83%N; 83%N]      (* sharp s *)
    else if (c =? 255)%N then [376%N]
    else if (c =? 181)%N then [924%N]           (* micro sign *)
    else if (c =? 305)%N then [73%N]            (* dotless i *)
    else if (c =? 383)%N then [83%N]            (* long s *)
    else [c];
  ud_decimal c :=
    in_range 1632 1641 c       (* Arabic-Indic *)
    || in_range 2406 2415 c    (* Devanagari *)
    || in_range 65296 65305 c  (* fullwidth *)
|}.

(** ** Vocabulary of the specification *)

Definition whitespace_free (s : pystr) : Prop :=
  forallb (λ c, negb (is_space c)) s = true.

(** Normalized text: free of whitespace and unchanged by [upper]. *)
Definition normalized (U : UnicodeData) (s : pystr) : Prop :=
  whitespace_free s ∧ upper U s = s.

(** A split of a plate into region code, number and suffix, with the
    classes of the pattern: one or two letters of [A-Z], one to four
    digits of the class [\d], one to three letters of [A-Z]. *)
Definition plate_split (U : UnicodeData) (r n x : pystr) : Prop :=
  (1 ≤ length r ≤ 2) ∧ forallb is_ascii_upper r = true ∧
  (1 ≤ length n ≤ 4) ∧ forallb (is_digit U) n = true ∧
  (1 ≤ length x ≤ 3) ∧ forallb is_ascii_upper x = true.

(** The grammar of the pattern, anchored at both ends. *)
Definition plate_grammar (U : UnicodeData) (s : pystr) : Prop :=
  ∃ r n x, s = r ++ n ++ x ∧ plate_split U r n x.

(** The plate grammar in the words of the specification, whose text is
    over [A-Z0-9]: one or two letters of [A-Z], one to four digits of
    [0-9], one to three letters of [A-Z], and nothing else. *)
Definition spec_plate_grammar (s : pystr) : Prop :=
  ∃ r n x, s = r ++ n ++ x ∧
    (1 ≤ length r ≤ 2) ∧ forallb is_ascii_upper r = true ∧
    (1 ≤ length n ≤ 4) ∧ forallb is_ascii_digit n = true ∧
    (1 ≤ length x ≤ 3) ∧ forallb is_ascii_upper x = true.

(** Text in which every character of the class [\d] is one of [0-9]. *)
Definition ascii_digits_only (U : UnicodeData) (s : pystr) : Prop :=
  forallb (λ c, implb (is_digit U c) (is_ascii_digit c)) s = true.

(** The maximal leading run of a string inside a class. *)
Definition leading_run (cls : codepoint → bool) (s : pystr) : pystr :=
  take (run_length cls s) s.

(** Whether the text of a detection is recognised as a plate. *)
Definition parses (U : UnicodeData) (raw : pystr) : bool :=
  match parse U (normalize U raw) with
  | Ok (Some _) => true
  | _ => false
  end.

(** The text of a detection, as whitespace and ASCII letters and digits
    only. *)
Definition plain_text (s : pystr) : Prop :=
  forallb (λ c, is_space c || is_ascii_alnum c) s = true.

(** The region lookup as the specification words it: the name, the names
    joined by a comma and a space, or the sentinel. *)
Definition resolveRegion (c : pystr) : pystr :=
  match cityCode_dict !! c with
  | Some (Single name) => name
  | Some (Multiple names) => join (str ", ") names
  | None => sentinel
  end.

(** The record the specification describes for a detection whose text
    parses to [p]. *)
Definition plate_record {Conf BBox} (raw : pystr) (p : ParsedPlate)
    (conf : Conf) (box : BBox) : plate_info Conf BBox :=
  {| original_text := raw;
     formatted_plate := formatPlate p;
     region_code := regionCode p;
     region_info := resolveRegion (regionCode p);
     confidence := conf;
     bbox := box |}.

(** The record of a detection, if its text parses. *)
Definition detection_record (U : UnicodeData) {Conf BBox}
    (d : prediction Conf BBox) : option (plate_info Conf BBox) :=
  match parse U (normalize U (OcrResult.text (ocr d))) with
  | Ok (Some p) =>
      Some (plate_record (OcrResult.text (ocr d)) p
              (OcrResult.confidence (ocr d)) (bbox_xyxy d))
  | _ => None
  end.

(** What a detection and the record made from it have in common. *)
Definition detection_data {Conf BBox} (d : prediction Conf BBox)
    : pystr * Conf * BBox :=
  (OcrResult.text (ocr d), OcrResult.confidence (ocr d), bbox_xyxy d).

Definition record_data {Conf BBox} (r : plate_info Conf BBox)
    : pystr * Conf * BBox :=
  (original_text r, confidence r, bbox r).

(** ** The annotation loop of the notebook *)

(** The loop that draws the records of [process_alpr_results] on the
    frame.  The drawing library is outside the notebook: the loop is
    modelled by the calls it makes, in order, and the library decides what
    each call does to the frame and whether it raises. *)

Inductive font := FONT_HERSHEY_SIMPLEX.

(** A call to the drawing library, by its arguments after the frame. *)
Inductive draw_call :=
  | rectangle (pt1 pt2 : Z * Z) (color : Z * Z * Z) (thickness : Z)
  | putText (text : pystr) (org : Z * Z) (fontFace : font) (fontScale : Q)
      (color : Z * Z * Z) (thickness : Z).

(** What can stop [x1, y1, x2, y2 = map(int, ...)]. *)
Inductive unpack_exn :=
  | IntError                      (* int(v) raised *)
  | NotEnoughValues (got : nat)   (* ValueError: not enough values to unpack *)
  | TooManyValues.                (* ValueError: too many values to unpack *)

Section Annotation.
Context {Conf Num : Type}.

(** [int(v)] on a coordinate, [None] when it raises.  The type of the
    coordinates is that of the detector and is left open. *)
Context (py_int : Num → option Z).

(** [x1, y1, x2, y2 = map(int, vs)].  The iterator converts a value when
    the unpacking asks for it: four values, then a fifth to see that there
    is none. *)
Definition unpack4 (vs : list Num) : unpack_exn + (Z * Z * Z * Z) :=
  match vs with
  | [] => inl (NotEnoughValues 0)
  | a :: vs =>
  match py_int a with None => inl IntError | Some x1 =>
  match vs with
  | [] => inl (NotEnoughValues 1)
  | b :: vs =>
  match py_int b with None => inl IntError | Some y1 =>
  match vs with
  | [] => inl (NotEnoughValues 2)
  | c :: vs =>
  match py_int c with None => inl IntError | Some x2 =>
  match vs with
  | [] => inl (NotEnoughValues 3)
  | d :: vs =>
  match py_int d with None => inl IntError | Some y2 =>
  match vs with
  | [] => inr (x1, y1, x2, y2)
  | e :: _ =>
  match py_int e with None => inl IntError | Some _ => inl TooManyValues end
  end end end end end end end end end.

(** [f"{plate['formatted_plate']} ({plate['region_info']})"] *)
Definition label_of (plate : plate_info Conf (list Num)) : pystr :=
  formatted_plate plate ++ str " (" ++ region_info plate ++ str ")".

(** The three calls of the body of the loop, for a box and its label. *)
Definition plate_calls (box : Z * Z * Z * Z) (label : pystr)
    : list draw_call :=
  let '(x1, y1, x2, y2) := box in
  [ rectangle (x1, y1) (x2, y2) (0, 255, 0) 3;
    rectangle (x1, y1 - 30) (x2, y1) (0, 255, 0) (-1);
    putText label (x1, y1 - 10) FONT_HERSHEY_SIMPLEX (0.8)%Q (0, 0, 0) 2 ]%Z.

(** The drawing library, which is outside the notebook and is left open:
    a call on the frame gives the frame after the call and, when the call
    raises, the exception. *)
Context {Frame Exn : Type}.
Context (cv2 : Frame → draw_call → Frame * option Exn).

(** What can end the loop early. *)
Inductive annotate_exn :=
  | UnpackError (e : unpack_exn)   (* the unpacking of the box raised *)
  | DrawError (e : Exn).           (* a call of the drawing library raised *)

(** Statements in sequence: each call is made on the frame the one before
    it left, and the first call that raises ends the sequence.  [made] are
    the calls that have returned. *)
Fixpoint run_calls (frame : Frame) (todo made : list draw_call)
    : Frame * list draw_call * option Exn :=
  match todo with
  | [] => (frame, made, None)
  | c :: todo' =>
      match cv2 frame c with
      | (frame', None) => run_calls frame' todo' (made ++ [c])
      | (frame', Some e) => (frame', made, Some e)
      end
  end.

(** The [for] loop on [annotated_frame_advanced]: the frame it leaves, the
    calls that returned, and the exception that ended the loop if one
    did. *)
Fixpoint annotate (detected_plates : list (plate_info Conf (list Num)))
    (frame : Frame) (made : list draw_call)
    : Frame * list draw_call * option annotate_exn :=
  match detected_plates with
  | [] => (frame, made, None)
  | plate :: rest =>
      match unpack4 (bbox plate) with
      | inl e => (frame, made, Some (UnpackError e))
      | inr box =>
          let label := label_of plate in
          match run_calls frame (plate_calls box label) made with
          | (frame', made', None) => annotate rest frame' made'
          | (frame', made', Some e) => (frame', made', Some (DrawError e))
          end
      end
  end.
End Annotation.

(** The texts a list of calls writes, in order. *)
Definition texts_drawn (calls : list draw_call) : list pystr :=
  omap (λ c, match c with putText text _ _ _ _ _ => Some text | _ => None end)
       calls.

(** The boxes a list of calls outlines, in order: the rectangles that are
    not filled. *)
Definition boxes_drawn (calls : list draw_call) : list (Z * Z * Z * Z) :=
  omap (λ c, match c with
             | rectangle (x1, y1) (x2, y2) _ thickness =>
                 if (0 <=? thickness)%Z then Some (x1, y1, x2, y2) else None
             | _ => None
             end) calls.

(** * Properties *)

(** Case analysis on every comparison of code points in sight, dropping
    the impossible cases as they come. *)
Ltac cmp_cases :=
  repeat (match goal with
    | |- context [(?a <=? ?b)%N] => destruct (N.leb_spec a b)
    | |- context [(?a <? ?b)%N] => destruct (N.ltb_spec a b)
    | |- context [(?a =? ?b)%N] => destruct (N.eqb_spec a b)
    | H : context [(?a <=? ?b)%N] |- _ => destruct (N.leb_spec a b)
    | H : context [(?a <? ?b)%N] |- _ => destruct (N.ltb_spec a b)
    | H : context [(?a =? ?b)%N] |- _ => destruct (N.eqb_spec a b)
    end; try lia);
  simpl in *; try discriminate; try reflexivity; try lia.

(** ** Running the code *)

(** The inputs of the specification's list of testable properties. *)
Example parse_spaced_lower_case U :
  parse U (normalize U (str " d 1234 abc ")) =
  Ok (Some {| regionCode := str "D"; number := str "1234"; suffix := str "ABC" |}).
Proof. vm_compute. reflexivity. Qed.

Example formatPlate_D_1234_ABC :
  formatPlate {| regionCode := str "D"; number := str "1234"; suffix := str "ABC" |} =
  str "D 1234 ABC".
Proof. reflexivity. Qed.

Example extract_two_letter_code U :
  extract_indonesian_plate_format U (str "dk 1 abc") =
  Ok (Some (str "DK 1 ABC"), Some (str "DK")).
Proof. vm_compute. reflexivity. Qed.

Example extract_three_letter_prefix U :
  extract_indonesian_plate_format U (str "DKK1ABC") = Ok (None, None).
Proof. vm_compute. reflexivity. Qed.

(** [$] accepts a newline that ends the string; [re.match] is only ever
    given text from which whitespace is gone. *)
Example parse_before_final_newline U :
  parse U (str "D1A" ++ [10%N]) =
  Ok (Some {| regionCode := str "D"; number := str "1"; suffix := str "A" |}).
Proof. vm_compute. reflexivity. Qed.

(** Outside ASCII: U+00DF upper-cases to "SS" and U+0661 is a decimal
    digit, so the text U+00DF U+0661 "a" is read as the plate SS, U+0661,
    A. *)
Example extract_outside_ascii :
  extract_indonesian_plate_format unicode_fragment [223; 1633; 97]%N =
  Ok (Some [83; 83; 32; 1633; 32; 65]%N, Some (str "SS")).
Proof. vm_compute. reflexivity. Qed.

(** The keys of the dictionary literal are distinct, so the dictionary
    holds exactly the entries written in the source. *)
Lemma cityCode_keys_distinct : NoDup (cityCode_entries.*1).
Proof. apply (bool_decide_unpack _). vm_compute. exact I. Qed.

Lemma cityCode_dict_entries k v :
  cityCode_dict !! k = Some v ↔ (k, v) ∈ cityCode_entries.
Proof.
  symmetry. apply elem_of_list_to_map, cityCode_keys_distinct.
Qed.

(** ** The matcher *)

Lemma try_lengths_first {A} (k : nat → option A) lo extra r :
  k (lo + extra) = Some r → try_lengths k lo extra = Some r.
Proof. intros H. destruct extra; simpl; rewrite H; reflexivity. Qed.

Lemma try_lengths_Some {A} (k : nat → option A) lo extra r :
  try_lengths k lo extra = Some r →
  ∃ n, lo ≤ n ≤ lo + extra ∧ k n = Some r.
Proof.
  induction extra as [|e IH]; simpl.
  - destruct (k (lo + 0)) eqn:E; [|discriminate].
    intros [= <-]. exists (lo + 0). split; [lia|exact E].
  - destruct (k (lo + S e)) eqn:E.
    + intros [= <-]. exists (lo + S e). split; [lia|exact E].
    + intros H. destruct (IH H) as (n & Hn & Hk). exists n. split; [lia|exact Hk].
Qed.

Lemma try_lengths_None {A} (k : nat → option A) lo extra :
  (∀ n, lo ≤ n ≤ lo + extra → k n = None) → try_lengths k lo extra = None.
Proof.
  induction extra as [|e IH]; intros H; simpl.
  - rewrite H by lia. reflexivity.
  - rewrite H by lia. apply IH. intros n Hn. apply H. lia.
Qed.

Lemma run_length_le cls s : run_length cls s ≤ length s.
Proof. induction s as [|c s IH]; simpl; [lia|]. destruct (cls c); simpl; lia. Qed.

Lemma run_length_take cls s n :
  n ≤ run_length cls s → forallb cls (take n s) = true.
Proof.
  revert n. induction s as [|c s IH]; intros [|n] H; simpl in *;
    try reflexivity.
  destruct (cls c); [|lia]. simpl. apply IH. lia.
Qed.

Lemma run_length_app cls a b :
  forallb cls a = true → run_length cls b = 0 →
  run_length cls (a ++ b) = length a.
Proof.
  intros Ha Hb. induction a as [|c a IH]; simpl in *; [exact Hb|].
  apply andb_true_iff in Ha as [-> Ha]. rewrite IH by exact Ha. reflexivity.
Qed.

Lemma run_length_head_out cls c s : cls c = false → run_length cls (c :: s) = 0.
Proof. intros H. simpl. rewrite H. reflexivity. Qed.

Lemma at_end_inv s : at_end s = true → s = [] ∨ s = [10%N].
Proof.
  destruct s as [|c [|d s]]; simpl; intros H; try discriminate; [left|right]; auto.
  apply N.eqb_eq in H. subst. reflexivity.
Qed.

Section MatcherFacts.
Context (U : UnicodeData).

Lemma match_items_GroupRep_inv cls lo hi p' pos s g r :
  match_items U (GroupRep cls lo hi :: p') pos s g = Some r →
  ∃ n, lo ≤ n ≤ hi ∧ n ≤ run_length (class_has U cls) s ∧
       match_items U p' (pos + n) (drop n s) (g ++ [take n s]) = Some r.
Proof.
  simpl. destruct (Nat.ltb_spec (hi `min` run_length (class_has U cls) s) lo) as [Hlt|Hge];
    [discriminate|].
  intros H. apply try_lengths_Some in H as (n & Hn & Hk).
  exists n. repeat split; [lia|lia|lia|exact Hk].
Qed.

Lemma match_items_GroupRep_greedy cls lo hi p' pos s g r :
  let avail := hi `min` run_length (class_has U cls) s in
  lo ≤ avail →
  match_items U p' (pos + avail) (drop avail s) (g ++ [take avail s]) = Some r →
  match_items U (GroupRep cls lo hi :: p') pos s g = Some r.
Proof.
  intros avail Hlo Hk. simpl. fold avail.
  destruct (Nat.ltb_spec avail lo) as [Hlt|Hge]; [lia|].
  apply try_lengths_first. replace (lo + (avail - lo)) with avail by lia.
  exact Hk.
Qed.

Lemma match_items_GroupRep_None cls lo hi p' pos s g :
  (∀ n, lo ≤ n ≤ hi → n ≤ run_length (class_has U cls) s →
        match_items U p' (pos + n) (drop n s) (g ++ [take n s]) = None) →
  match_items U (GroupRep cls lo hi :: p') pos s g = None.
Proof.
  intros H. simpl.
  destruct (Nat.ltb_spec (hi `min` run_length (class_has U cls) s) lo) as [Hlt|Hge];
    [reflexivity|].
  apply try_lengths_None. intros n Hn. apply H; lia.
Qed.

Lemma upper_not_digit c : is_ascii_upper c = true → is_digit U c = false.
Proof.
  unfold is_ascii_upper, is_digit, is_ascii, is_ascii_digit, in_range.
  intros H. cmp_cases.
Qed.

Lemma digit_not_upper c : is_digit U c = true → is_ascii_upper c = false.
Proof.
  intros H. destruct (is_ascii_upper c) eqn:E; [|reflexivity].
  rewrite (upper_not_digit c E) in H. discriminate.
Qed.
End MatcherFacts.

Section PatternFacts.
Context (U : UnicodeData).

Lemma match_items_Caret p' s g :
  match_items U (Caret :: p') 0 s g = match_items U p' 0 s g.
Proof. reflexivity. Qed.

Lemma match_items_Dollar p' pos s g :
  match_items U (Dollar :: p') pos s g =
  if at_end s then match_items U p' pos s g else None.
Proof. reflexivity. Qed.

Lemma match_items_GroupRep_run cls lo hi p' pos a b g r :
  forallb (class_has U cls) a = true →
  run_length (class_has U cls) b = 0 →
  lo ≤ length a ≤ hi →
  match_items U p' (pos + length a) b (g ++ [a]) = Some r →
  match_items U (GroupRep cls lo hi :: p') pos (a ++ b) g = Some r.
Proof.
  intros Ha Hb Hlen Hk. apply match_items_GroupRep_greedy;
    rewrite (run_length_app _ a b Ha Hb);
    replace (hi `min` length a) with (length a) by lia.
  - lia.
  - rewrite drop_app_length, take_app_length. exact Hk.
Qed.

Lemma take_three (r n x t : pystr) :
  take (length r + length n + length x) (r ++ n ++ x ++ t) = r ++ n ++ x.
Proof.
  replace (r ++ n ++ x ++ t) with ((r ++ n ++ x) ++ t)
    by (rewrite <- !app_assoc; reflexivity).
  replace (length r + length n + length x) with (length (r ++ n ++ x))
    by (rewrite !length_app; lia).
  apply take_app_length.
Qed.

Lemma run_length_at_end cls t :
  cls 10%N = false → at_end t = true → run_length cls t = 0.
Proof.
  intros Hc Ht. apply at_end_inv in Ht as [-> | ->]; simpl; [reflexivity|].
  rewrite Hc. reflexivity.
Qed.

Lemma match_items_pattern_split r n x t :
  plate_split U r n x → at_end t = true →
  match_items U pattern 0 (r ++ n ++ x ++ t) [] =
  Some (length r + length n + length x, [r; n; x]).
Proof.
  intros (Hr & Hru & Hn & Hnd & Hx & Hxu) Ht.
  unfold pattern. rewrite match_items_Caret.
  apply match_items_GroupRep_run; [exact Hru | | lia |].
  { destruct n as [|d n']; [simpl in Hn; lia|].
    simpl in Hnd. apply andb_true_iff in Hnd as [Hd _].
    apply run_length_head_out. simpl. apply digit_not_upper with U. exact Hd. }
  apply match_items_GroupRep_run; [exact Hnd | | lia |].
  { destruct x as [|l x']; [simpl in Hx; lia|].
    simpl in Hxu. apply andb_true_iff in Hxu as [Hl _].
    apply run_length_head_out. simpl. apply upper_not_digit. exact Hl. }
  apply match_items_GroupRep_run; [exact Hxu | | lia |].
  { apply run_length_at_end; [reflexivity | exact Ht]. }
  rewrite match_items_Dollar, Ht. reflexivity.
Qed.

(** Every successful match comes from a split of the text, up to a final
    newline that [$] leaves unread. *)
Lemma match_items_pattern_inv s e gs :
  match_items U pattern 0 s [] = Some (e, gs) →
  ∃ r n x t, s = r ++ n ++ x ++ t ∧ at_end t = true ∧
             plate_split U r n x ∧
             e = length r + length n + length x ∧ gs = [r; n; x].
Proof.
  unfold pattern. rewrite match_items_Caret. intros H.
  apply match_items_GroupRep_inv in H as (n1 & Hn1 & Hr1 & H).
  apply match_items_GroupRep_inv in H as (n2 & Hn2 & Hr2 & H).
  apply match_items_GroupRep_inv in H as (n3 & Hn3 & Hr3 & H).
  rewrite match_items_Dollar in H.
  destruct (at_end (drop n3 (drop n2 (drop n1 s)))) eqn:Ht; [|discriminate].
  simpl in H. injection H as <- <-.
  set (s1 := drop n1 s) in *. set (s2 := drop n2 s1) in *.
  assert (L1 : length (take n1 s) = n1).
  { rewrite length_take. pose proof (run_length_le (class_has U (Range 65 90)) s). lia. }
  assert (L2 : length (take n2 s1) = n2).
  { rewrite length_take. pose proof (run_length_le (class_has U Digit) s1). lia. }
  assert (L3 : length (take n3 s2) = n3).
  { rewrite length_take. pose proof (run_length_le (class_has U (Range 65 90)) s2). lia. }
  exists (take n1 s), (take n2 s1), (take n3 s2), (drop n3 s2).
  split; [|split; [exact Ht|split; [|split]]].
  - unfold s2, s1. rewrite !take_drop. reflexivity.
  - unfold plate_split. rewrite L1, L2, L3.
    repeat split; try lia.
    + apply (run_length_take _ _ _ Hr1).
    + apply (run_length_take _ _ _ Hr2).
    + apply (run_length_take _ _ _ Hr3).
  - rewrite L1, L2, L3. lia.
  - reflexivity.
Qed.

Lemma re_match_pattern_split r n x t :
  plate_split U r n x → at_end t = true →
  re_match U pattern (r ++ n ++ x ++ t) = Some [r ++ n ++ x; r; n; x].
Proof.
  intros Hs Ht. unfold re_match.
  rewrite (match_items_pattern_split r n x t Hs Ht), take_three.
  reflexivity.
Qed.

Lemma re_match_pattern_inv s m :
  re_match U pattern s = Some m →
  ∃ r n x t, s = r ++ n ++ x ++ t ∧ at_end t = true ∧
             plate_split U r n x ∧ m = [r ++ n ++ x; r; n; x].
Proof.
  unfold re_match. destruct (match_items U pattern 0 s []) as [[e gs]|] eqn:E;
    [|discriminate].
  intros [= <-].
  apply match_items_pattern_inv in E as (r & n & x & t & -> & Ht & Hs & -> & ->).
  exists r, n, x, t. rewrite take_three. auto.
Qed.
End PatternFacts.

(** ** Parsing *)

Section ParseFacts.
Context (U : UnicodeData).

Lemma parse_split r n x t :
  plate_split U r n x → at_end t = true →
  parse U (r ++ n ++ x ++ t) =
  Ok (Some {| regionCode := r; number := n; suffix := x |}).
Proof.
  intros Hs Ht. unfold parse.
  rewrite (re_match_pattern_split U r n x t Hs Ht). reflexivity.
Qed.

Lemma parse_cases s :
  (parse U s = Ok None ∧ re_match U pattern s = None) ∨
  (∃ r n x t, s = r ++ n ++ x ++ t ∧ at_end t = true ∧ plate_split U r n x ∧
              parse U s = Ok (Some {| regionCode := r; number := n;
                                      suffix := x |})).
Proof.
  unfold parse. destruct (re_match U pattern s) as [m|] eqn:E; [right|left; auto].
  apply re_match_pattern_inv in E as (r & n & x & t & Hs & Ht & Hsp & ->).
  exists r, n, x, t. auto.
Qed.

Lemma parse_inv s p :
  parse U s = Ok (Some p) →
  ∃ t, s = regionCode p ++ number p ++ suffix p ++ t ∧ at_end t = true ∧
       plate_split U (regionCode p) (number p) (suffix p).
Proof.
  intros H. destruct (parse_cases s) as [[H0 _]|(r & n & x & t & Hs & Ht & Hsp & H1)].
  - congruence.
  - rewrite H1 in H. injection H as <-. exists t. auto.
Qed.

Lemma parse_total s : ∃ v, parse U s = Ok v.
Proof.
  destruct (parse_cases s) as [[H _]|(r & n & x & t & _ & _ & _ & H)]; eauto.
Qed.

Lemma whitespace_free_app a b :
  whitespace_free (a ++ b) ↔ whitespace_free a ∧ whitespace_free b.
Proof. unfold whitespace_free. rewrite forallb_app, andb_true_iff. reflexivity. Qed.

Lemma whitespace_free_at_end t :
  whitespace_free t → at_end t = true → t = [].
Proof.
  intros Hw Ht. apply at_end_inv in Ht as [-> | ->]; [reflexivity|].
  vm_compute in Hw. discriminate.
Qed.

Lemma parse_inv_ws_free s p :
  whitespace_free s → parse U s = Ok (Some p) →
  s = regionCode p ++ number p ++ suffix p ∧
  plate_split U (regionCode p) (number p) (suffix p).
Proof.
  intros Hw H. apply parse_inv in H as (t & Hs & Ht & Hsp).
  assert (t = []) as ->.
  { rewrite Hs in Hw. repeat apply whitespace_free_app in Hw as [_ Hw].
    apply whitespace_free_at_end; assumption. }
  rewrite !app_nil_r in Hs. auto.
Qed.

Lemma parse_grammar s r n x :
  s = r ++ n ++ x → plate_split U r n x →
  parse U s = Ok (Some {| regionCode := r; number := n; suffix := x |}).
Proof.
  intros -> Hsp. rewrite <- (app_nil_r x) at 1.
  apply parse_split; [exact Hsp|reflexivity].
Qed.
End ParseFacts.

Lemma forallb_impl {A} (f g : A → bool) l :
  (∀ a, f a = true → g a = true) → forallb f l = true → forallb g l = true.
Proof.
  intros Hfg. induction l as [|a l IH]; simpl; [reflexivity|].
  intros H. apply andb_true_iff in H as [Ha Hl].
  rewrite (Hfg a Ha), (IH Hl). reflexivity.
Qed.

Lemma is_ascii_digit_is_digit U c : is_ascii_digit c = true → is_digit U c = true.
Proof.
  unfold is_digit, is_ascii, is_ascii_digit, in_range. intros H. cmp_cases.
Qed.

Lemma parse_iff_plate_grammar U s :
  whitespace_free s →
  (∀ p, parse U s = Ok (Some p) ↔
        s = regionCode p ++ number p ++ suffix p ∧
        plate_split U (regionCode p) (number p) (suffix p)) ∧
  ((∃ p, parse U s = Ok (Some p)) ↔ plate_grammar U s) ∧
  (¬ plate_grammar U s → parse U s = Ok None).
Proof.
  intros Hw.
  assert (Hiff : ∀ p, parse U s = Ok (Some p) ↔
            s = regionCode p ++ number p ++ suffix p ∧
            plate_split U (regionCode p) (number p) (suffix p)).
  { intros p. split.
    - apply parse_inv_ws_free. exact Hw.
    - intros [Hs Hsp]. destruct p as [r n x]. simpl in *.
      apply parse_grammar; assumption. }
  split; [exact Hiff|]. split.
  - split.
    + intros [p Hp]. apply Hiff in Hp as [Hs Hsp].
      exists (regionCode p), (number p), (suffix p). auto.
    + intros (r & n & x & Hs & Hsp).
      exists {| regionCode := r; number := n; suffix := x |}.
      apply parse_grammar; assumption.
  - intros Hng. destruct (parse_cases U s) as [[H _]|(r & n & x & t & Hs & Ht & Hsp & H)];
      [exact H|].
    exfalso. apply Hng. exists r, n, x. split; [|exact Hsp].
    apply (parse_inv_ws_free U s _ Hw) in H as [H _]. exact H.
Qed.

Lemma spec_plate_grammar_plate_grammar U s :
  spec_plate_grammar s → plate_grammar U s.
Proof.
  intros (r & n & x & Hs & Hr & Hru & Hn & Hnd & Hx & Hxu).
  exists r, n, x. split; [exact Hs|]. repeat split; try lia; try assumption.
  apply (forallb_impl is_ascii_digit); [apply is_ascii_digit_is_digit|exact Hnd].
Qed.

Lemma plate_grammar_spec_plate_grammar U s :
  ascii_digits_only U s → plate_grammar U s → spec_plate_grammar s.
Proof.
  intros Ha (r & n & x & Hs & Hr & Hru & Hn & Hnd & Hx & Hxu).
  exists r, n, x. split; [exact Hs|]. repeat split; try lia; try assumption.
  unfold ascii_digits_only in Ha. rewrite Hs, !forallb_app in Ha.
  apply andb_true_iff in Ha as [_ Ha]. apply andb_true_iff in Ha as [Ha _].
  clear -Ha Hnd. induction n as [|c n IH]; simpl in *; [reflexivity|].
  apply andb_true_iff in Ha as [Hc Ha]. apply andb_true_iff in Hnd as [Hd Hnd].
  rewrite Hd in Hc. simpl in Hc. rewrite Hc, (IH Ha Hnd). reflexivity.
Qed.

Lemma spec_plate_grammar_AZ09 s : spec_plate_grammar s → forallb is_AZ09 s = true.
Proof.
  intros (r & n & x & -> & _ & Hru & _ & Hnd & _ & Hxu).
  rewrite !forallb_app.
  rewrite (forallb_impl is_ascii_upper is_AZ09 r), (forallb_impl is_ascii_digit is_AZ09 n),
    (forallb_impl is_ascii_upper is_AZ09 x); try assumption; try reflexivity;
    intros a Ha; unfold is_AZ09; rewrite Ha; try reflexivity; apply orb_true_r.
Qed.

(** C1.  On normalized text [parse] returns a plate exactly when the text
    is one or two letters of [A-Z], then one to four digits, then one to
    three letters of [A-Z], with nothing before or after, and the plate it
    returns is that split; on any other text it returns [None], never a
    partial plate and never an exception.  A digit is what the class [\d]
    of the pattern accepts, which among ASCII characters is [0-9].  Five
    digits or four suffix letters are rejected.  Every text of the grammar
    of the specification, whose digits are [0-9], is accepted, and on
    normalized text with no other digit than [0-9] the texts accepted are
    exactly those of that grammar. *)
Theorem parse_accepts_exactly_the_grammar :
  (∀ U s, normalized U s →
     (∀ p, parse U s = Ok (Some p) ↔
           s = regionCode p ++ number p ++ suffix p ∧
           plate_split U (regionCode p) (number p) (suffix p)) ∧
     ((∃ p, parse U s = Ok (Some p)) ↔ plate_grammar U s) ∧
     (¬ plate_grammar U s → parse U s = Ok None)) ∧
  (∀ U c, is_ascii c = true → is_digit U c = is_ascii_digit c) ∧
  (∀ U, parse U (str "D12345ABC") = Ok None) ∧
  (∀ U, parse U (str "D1ABCDEF") = Ok None) ∧
  (∀ U s, normalized U s → spec_plate_grammar s →
          ∃ p, parse U s = Ok (Some p)) ∧
  (∀ U s, normalized U s → ascii_digits_only U s →
     ((∃ p, parse U s = Ok (Some p)) ↔ spec_plate_grammar s) ∧
     (¬ spec_plate_grammar s → parse U s = Ok None)).
Proof.
  split; [|split; [|split; [|split; [|split]]]].
  - intros U s [Hw _]. apply parse_iff_plate_grammar, Hw.
  - intros U c Hc. unfold is_digit. rewrite Hc. reflexivity.
  - intros U. vm_compute. reflexivity.
  - intros U. vm_compute. reflexivity.
  - intros U s [Hw _] Hg.
    apply (parse_iff_plate_grammar U s Hw), spec_plate_grammar_plate_grammar, Hg.
  - intros U s [Hw _] Ha.
    destruct (parse_iff_plate_grammar U s Hw) as (_ & Hiff & Hnone). split.
    + rewrite Hiff. split.
      * apply plate_grammar_spec_plate_grammar, Ha.
      * apply spec_plate_grammar_plate_grammar.
    + intros Hn. apply Hnone. intros Hg. apply Hn.
      apply (plate_grammar_spec_plate_grammar U s Ha Hg).
Qed.

(** C1, as stated for the grammar of the specification, fails: the text
    "D", U+0661, "A" is normalized and [parse] returns a plate for it,
    though U+0661 (ARABIC-INDIC DIGIT ONE) is none of [0-9]; the class
    [\d] of the pattern holds every decimal digit. *)
Lemma parse_accepts_other_decimal_digits :
  normalized unicode_fragment [68; 1633; 65]%N ∧
  parse unicode_fragment [68; 1633; 65]%N =
    Ok (Some {| regionCode := [68%N]; number := [1633%N]; suffix := [65%N] |}) ∧
  ¬ spec_plate_grammar [68; 1633; 65]%N ∧
  ¬ (∀ U s, normalized U s →
       ((∃ p, parse U s = Ok (Some p)) ↔ spec_plate_grammar s)).
Proof.
  assert (Hn : normalized unicode_fragment [68; 1633; 65]%N)
    by (split; reflexivity).
  assert (Hg : ¬ spec_plate_grammar [68; 1633; 65]%N).
  { intros H. apply spec_plate_grammar_AZ09 in H. vm_compute in H. discriminate. }
  split; [exact Hn|]. split; [reflexivity|]. split; [exact Hg|].
  intros H. apply Hg, (H unicode_fragment _ Hn). eexists. reflexivity.
Qed.

Lemma parse_accepts_exactly_the_grammar_witness :
  (∃ p, parse unicode_fragment (str "D1234ABC") = Ok (Some p)) ↔
  plate_grammar unicode_fragment (str "D1234ABC").
Proof.
  apply (proj1 parse_accepts_exactly_the_grammar unicode_fragment (str "D1234ABC")).
  split; reflexivity.
Defined.

(** C8.  When [parse] accepts a text, the region code is the whole
    leading run of letters of [A-Z] of the text, one or two letters long,
    which is the longest the quantifier [{1,2}] can take; the number is
    the whole run of digits that follows; and no other split of the text
    fits the grammar, so the greedy match is the only match. *)
Theorem parse_region_code_is_leading_run U s p :
  parse U s = Ok (Some p) →
  regionCode p = leading_run is_ascii_upper s ∧
  length (regionCode p) = 2 `min` run_length is_ascii_upper s ∧
  number p = leading_run (is_digit U) (drop (length (regionCode p)) s) ∧
  (∀ r n x, s = r ++ n ++ x → plate_split U r n x →
            p = {| regionCode := r; number := n; suffix := x |}).
Proof.
  intros H. pose proof H as H'.
  apply parse_inv in H' as (t & Hs & Ht & Hsp).
  pose proof Hsp as (Hr & Hru & Hn & Hnd & Hx & Hxu).
  assert (R1 : run_length is_ascii_upper s = length (regionCode p)).
  { rewrite Hs. apply run_length_app; [exact Hru|].
    destruct (number p) as [|d n']; [simpl in Hn; lia|].
    simpl in Hnd. apply andb_true_iff in Hnd as [Hd _].
    apply run_length_head_out. apply digit_not_upper with U. exact Hd. }
  assert (R2 : run_length (is_digit U) (number p ++ suffix p ++ t) = length (number p)).
  { apply run_length_app; [exact Hnd|].
    destruct (suffix p) as [|l x']; [simpl in Hx; lia|].
    simpl in Hxu. apply andb_true_iff in Hxu as [Hl _].
    apply run_length_head_out. apply upper_not_digit. exact Hl. }
  split; [|split; [|split]].
  - unfold leading_run. rewrite R1, Hs, take_app_length. reflexivity.
  - rewrite R1. lia.
  - unfold leading_run. rewrite Hs, drop_app_length, R2, take_app_length.
    reflexivity.
  - intros r n x Hs' Hsp'. pose proof (parse_grammar U s r n x Hs' Hsp') as H2.
    rewrite H in H2. injection H2 as ->. reflexivity.
Qed.

Lemma parse_region_code_is_leading_run_witness :
  regionCode {| regionCode := str "DK"; number := str "12"; suffix := str "AB" |} =
  leading_run is_ascii_upper (str "DK12AB").
Proof.
  apply (parse_region_code_is_leading_run unicode_fragment (str "DK12AB")
           {| regionCode := str "DK"; number := str "12"; suffix := str "AB" |}).
  reflexivity.
Defined.

(** ** Normalization *)

Lemma re_sub_spaces_app a b :
  re_sub_spaces (a ++ b) = re_sub_spaces a ++ re_sub_spaces b.
Proof.
  induction a as [|c a IH]; simpl; [reflexivity|].
  destruct (is_space c); simpl; rewrite IH; reflexivity.
Qed.

Lemma re_sub_spaces_whitespace_free s : whitespace_free (re_sub_spaces s).
Proof.
  unfold whitespace_free. induction s as [|c s IH]; simpl; [reflexivity|].
  destruct (is_space c) eqn:E; simpl; [exact IH|]. rewrite E, IH. reflexivity.
Qed.

Lemma re_sub_spaces_id s : whitespace_free s → re_sub_spaces s = s.
Proof.
  unfold whitespace_free. induction s as [|c s IH]; simpl; [reflexivity|].
  intros H. apply andb_true_iff in H as [Hc Hs].
  apply negb_true_iff in Hc. rewrite Hc, IH by exact Hs. reflexivity.
Qed.

Lemma is_AZ09_not_space c : is_AZ09 c = true → is_space c = false.
Proof.
  unfold is_AZ09, is_ascii_upper, is_ascii_digit, is_space, in_range.
  intros H. cmp_cases.
Qed.

Lemma AZ09_whitespace_free s : forallb is_AZ09 s = true → whitespace_free s.
Proof.
  unfold whitespace_free. induction s as [|c s IH]; simpl; [reflexivity|].
  intros H. apply andb_true_iff in H as [Hc Hs].
  rewrite (is_AZ09_not_space c Hc), IH by exact Hs. reflexivity.
Qed.

Lemma uppers_AZ09 s : forallb is_ascii_upper s = true → forallb is_AZ09 s = true.
Proof.
  induction s as [|c s IH]; simpl; [reflexivity|].
  intros H. apply andb_true_iff in H as [Hc Hs].
  rewrite (IH Hs), andb_true_r. unfold is_AZ09. rewrite Hc. reflexivity.
Qed.

Section UpperFacts.
Context (U : UnicodeData).

Lemma upper_app a b : upper U (a ++ b) = upper U a ++ upper U b.
Proof.
  induction a as [|c a IH]; simpl; [reflexivity|].
  rewrite IH, app_assoc. reflexivity.
Qed.

Lemma upper_cp_AZ09 c : is_AZ09 c = true → upper_cp U c = [c].
Proof.
  unfold is_AZ09, is_ascii_upper, is_ascii_digit, upper_cp, is_ascii,
    ascii_upper, is_ascii_lower, in_range.
  intros H. cmp_cases.
Qed.

Lemma upper_cp_digit c : is_digit U c = true → upper_cp U c = [c].
Proof.
  unfold is_digit, upper_cp. destruct (is_ascii c) eqn:E.
  - intros H. unfold ascii_upper, is_ascii_lower, is_ascii_digit, in_range in *.
    cmp_cases.
  - intros ->. rewrite orb_true_r. reflexivity.
Qed.

Lemma upper_cp_space c : is_space c = true → upper_cp U c = [c].
Proof.
  unfold upper_cp. destruct (is_ascii c) eqn:E.
  - unfold is_space, is_ascii, ascii_upper, is_ascii_lower, in_range in *.
    intros H. cmp_cases.
  - intros ->. reflexivity.
Qed.

Lemma upper_cp_alnum c :
  is_ascii_alnum c = true →
  upper_cp U c = [ascii_upper c] ∧ is_AZ09 (ascii_upper c) = true.
Proof.
  unfold is_ascii_alnum, is_AZ09, is_ascii_upper, is_ascii_digit, upper_cp,
    is_ascii, ascii_upper, is_ascii_lower, in_range.
  intros H. cmp_cases; split; cmp_cases.
Qed.

Lemma upper_fixed (cls : codepoint → bool) s :
  (∀ c, cls c = true → upper_cp U c = [c]) →
  forallb cls s = true → upper U s = s.
Proof.
  intros Hc. induction s as [|c s IH]; simpl; [reflexivity|].
  intros H. apply andb_true_iff in H as [H1 H2].
  rewrite (Hc c H1), IH by exact H2. reflexivity.
Qed.

Lemma upper_AZ09 s : forallb is_AZ09 s = true → upper U s = s.
Proof. apply upper_fixed, upper_cp_AZ09. Qed.

Lemma upper_digits s : forallb (is_digit U) s = true → upper U s = s.
Proof. apply upper_fixed, upper_cp_digit. Qed.

Lemma normalize_whitespace_free text : whitespace_free (normalize U text).
Proof. apply re_sub_spaces_whitespace_free. Qed.

Lemma normalize_AZ09 s : forallb is_AZ09 s = true → normalize U s = s.
Proof.
  intros H. unfold normalize. rewrite (upper_AZ09 s H).
  apply re_sub_spaces_id, AZ09_whitespace_free, H.
Qed.

Lemma normalize_plain s :
  plain_text s → forallb is_AZ09 (normalize U s) = true.
Proof.
  unfold plain_text, normalize. induction s as [|c s IH]; simpl; [reflexivity|].
  intros H. apply andb_true_iff in H as [Hc Hs].
  rewrite re_sub_spaces_app, forallb_app, (IH Hs), andb_true_r.
  destruct (is_space c) eqn:E.
  - rewrite (upper_cp_space c E). simpl. rewrite E. reflexivity.
  - simpl in Hc. destruct (upper_cp_alnum c Hc) as [-> Hu].
    simpl. rewrite (is_AZ09_not_space _ Hu). simpl. rewrite Hu. reflexivity.
Qed.

(** The plate string of a split normalizes to the split itself, as long
    as the digits are not whitespace. *)
Lemma normalize_formatPlate r n x :
  plate_split U r n x → whitespace_free n →
  normalize U (formatPlate {| regionCode := r; number := n; suffix := x |}) =
  r ++ n ++ x.
Proof.
  intros (_ & Hru & _ & Hnd & _ & Hxu) Hwn.
  unfold normalize, formatPlate. simpl regionCode. simpl number. simpl suffix.
  rewrite !upper_app, !re_sub_spaces_app.
  rewrite (upper_AZ09 r (uppers_AZ09 r Hru)), (upper_AZ09 x (uppers_AZ09 x Hxu)),
    (upper_digits n Hnd).
  rewrite (re_sub_spaces_id r), (re_sub_spaces_id x), (re_sub_spaces_id n);
    [reflexivity | exact Hwn | |];
    apply AZ09_whitespace_free, uppers_AZ09; assumption.
Qed.
End UpperFacts.

(** C3.  Text made of whitespace and ASCII letters and digits only
    normalizes to text over [A-Z0-9]; the output of [normalize] is free of
    whitespace for every input. *)
Theorem normalize_plain_text_is_AZ09 :
  (∀ U s, plain_text s → forallb is_AZ09 (normalize U s) = true) ∧
  (∀ U s, whitespace_free (normalize U s)).
Proof.
  split; intros U s.
  - apply normalize_plain.
  - apply normalize_whitespace_free.
Qed.

Lemma normalize_plain_text_is_AZ09_witness :
  forallb is_AZ09 (normalize unicode_fragment (str " d 1234 abc ")) = true.
Proof.
  apply (proj1 normalize_plain_text_is_AZ09 unicode_fragment (str " d 1234 abc ")).
  reflexivity.
Defined.

(** C3, as stated, fails: ["###"] normalizes to itself, which is not text
    over [A-Z0-9]. *)
Lemma normalize_keeps_other_characters :
  normalize unicode_fragment (str "###") = str "###" ∧
  forallb is_AZ09 (normalize unicode_fragment (str "###")) = false ∧
  ¬ (∀ U s, forallb is_AZ09 (normalize U s) = true).
Proof.
  split; [reflexivity|split; [reflexivity|]].
  intros H. specialize (H unicode_fragment (str "###")).
  vm_compute in H. discriminate.
Qed.

(** C7.  On text made of whitespace and ASCII letters and digits,
    normalizing twice is normalizing once. *)
Theorem normalize_idempotent U s :
  plain_text s → normalize U (normalize U s) = normalize U s.
Proof. intros H. apply normalize_AZ09, normalize_plain, H. Qed.

Lemma normalize_idempotent_witness :
  normalize unicode_fragment (normalize unicode_fragment (str " d 1234 abc ")) =
  normalize unicode_fragment (str " d 1234 abc ").
Proof. apply normalize_idempotent. reflexivity. Defined.

(** ** Formatting *)

Section RoundTrip.
Context (U : UnicodeData).

Lemma roundtrip_whitespace_free s p :
  whitespace_free s → parse U s = Ok (Some p) →
  normalize U (formatPlate p) = s.
Proof.
  intros Hw H. destruct (parse_inv_ws_free U s p Hw H) as [Hs Hsp].
  destruct p as [r n x]. simpl in Hs, Hsp. subst s.
  apply normalize_formatPlate; [exact Hsp|].
  apply whitespace_free_app in Hw as [_ Hw].
  apply whitespace_free_app in Hw as [Hw _]. exact Hw.
Qed.

Lemma formatPlate_nonempty p : truthy (Some (formatPlate p)) = true.
Proof.
  unfold formatPlate. destruct (regionCode p); reflexivity.
Qed.

(** [extract_indonesian_plate_format] is [parse] on normalized text,
    then [formatPlate]. *)
Lemma extract_as_parse text :
  extract_indonesian_plate_format U text =
  match parse U (normalize U text) with
  | Ok (Some p) => Ok (Some (formatPlate p), Some (regionCode p))
  | Ok None => Ok (None, None)
  | Raise e => Raise e
  end.
Proof.
  unfold extract_indonesian_plate_format, parse, normalize.
  destruct (re_match U pattern (re_sub_spaces (upper U text))) as [m|] eqn:E;
    [|reflexivity].
  apply re_match_pattern_inv in E as (r & n & x & t & _ & _ & _ & ->).
  reflexivity.
Qed.
End RoundTrip.

(** C10.  A plate obtained from normalized text formats to a string that
    normalizes back to that text and parses to the same plate; so it is
    for the plate [extract_indonesian_plate_format] finds in a raw text and
    the cleaned form of that text. *)
Theorem format_then_parse_roundtrip :
  (∀ U s p, normalized U s → parse U s = Ok (Some p) →
     normalize U (formatPlate p) = s ∧
     parse U (normalize U (formatPlate p)) = Ok (Some p)) ∧
  (∀ U raw p, parse U (normalize U raw) = Ok (Some p) →
     normalize U (formatPlate p) = normalize U raw ∧
     parse U (normalize U (formatPlate p)) = Ok (Some p)).
Proof.
  split.
  - intros U s p [Hw _] H.
    rewrite (roundtrip_whitespace_free U s p Hw H). auto.
  - intros U raw p H.
    rewrite (roundtrip_whitespace_free U _ p (normalize_whitespace_free U raw) H).
    auto.
Qed.

Lemma format_then_parse_roundtrip_witness :
  normalize unicode_fragment
    (formatPlate {| regionCode := str "D"; number := str "1234";
                    suffix := str "ABC" |}) =
  normalize unicode_fragment (str " d 1234 abc ").
Proof.
  apply (proj2 format_then_parse_roundtrip unicode_fragment (str " d 1234 abc ")).
  reflexivity.
Defined.

Lemma extract_cases U text :
  extract_indonesian_plate_format U text = Ok (None, None) ∨
  ∃ p, extract_indonesian_plate_format U text =
       Ok (Some (formatPlate p), Some (regionCode p)).
Proof.
  rewrite extract_as_parse.
  destruct (parse_cases U (normalize U text))
    as [[-> _]|(r & n & x & t & _ & _ & _ & ->)]; [left|right]; eauto.
Qed.

(** C9.  [extract_indonesian_plate_format] returns the formatted plate and
    the region code together, or [(None, None)]; never one without the
    other. *)
Theorem extract_both_or_neither U text :
  extract_indonesian_plate_format U text = Ok (None, None) ∨
  ∃ formatted_plate region_code,
    extract_indonesian_plate_format U text =
    Ok (Some formatted_plate, Some region_code).
Proof.
  destruct (extract_cases U text) as [H|[p H]]; [left|right]; eauto.
Qed.

(** ** Region lookup *)

Lemma get_region_info_resolve c : get_region_info c = Ok (resolveRegion c).
Proof.
  unfold get_region_info, resolveRegion, dict_contains, dict_getitem.
  destruct (cityCode_dict !! c) as [[name|names]|]; reflexivity.
Qed.

(** C4.  A code that the table maps to a single name resolves to that
    name; a code that it maps to a list of names resolves to the names
    joined by a comma and a space, in the order of the list; a code that
    is not a key resolves to the sentinel.  ["DK"], ["B"] and ["ZZ"] are
    the three cases. *)
Theorem get_region_info_by_cases :
  (∀ c,
     (∀ name, (c, Single name) ∈ cityCode_entries →
              get_region_info c = Ok name) ∧
     (∀ names, (c, Multiple names) ∈ cityCode_entries →
               get_region_info c = Ok (join (str ", ") names)) ∧
     (c ∉ cityCode_entries.*1 → get_region_info c = Ok sentinel)) ∧
  (∀ sep a b rest, join sep (a :: b :: rest) = a ++ sep ++ join sep (b :: rest)) ∧
  get_region_info (str "DK") = Ok (str "Bali") ∧
  get_region_info (str "B") = Ok (str "DKI Jakarta, Bekasi, Depok, Tangerang") ∧
  get_region_info (str "ZZ") = Ok (str "Region not found in database").
Proof.
  split; [|split; [reflexivity|repeat split; vm_compute; reflexivity]].
  intros c. rewrite get_region_info_resolve. unfold resolveRegion.
  split; [|split].
  - intros name H. apply cityCode_dict_entries in H. rewrite H. reflexivity.
  - intros names H. apply cityCode_dict_entries in H. rewrite H. reflexivity.
  - intros H. unfold cityCode_dict.
    rewrite (not_elem_of_list_to_map_1 _ _ H). reflexivity.
Qed.

Lemma get_region_info_by_cases_witness :
  get_region_info (str "BA") = Ok (str "Sumatera Barat").
Proof.
  apply (proj1 (proj1 get_region_info_by_cases (str "BA"))).
  apply (bool_decide_unpack _). vm_compute. exact I.
Defined.

(** ** Detections *)

Section FrameFacts.
Context (U : UnicodeData) {Conf BBox : Type}.
Implicit Types (d : prediction Conf BBox) (acc : list (plate_info Conf BBox)).

Lemma process_detection_record d :
  process_detection U d = Ok (detection_record U d).
Proof.
  unfold process_detection, detection_record.
  rewrite extract_as_parse.
  destruct (parse_cases U (normalize U (OcrResult.text (ocr d))))
    as [[-> _]|(r & n & x & t & _ & _ & Hsp & ->)]; [reflexivity|].
  cbn [mbind result_bind]. rewrite formatPlate_nonempty.
  destruct Hsp as (Hr & _). cbn [regionCode].
  destruct r as [|c r]; [simpl in Hr; lia|].
  cbn [truthy andb]. rewrite get_region_info_resolve. reflexivity.
Qed.

Lemma loop_body_record acc d :
  loop_body U acc d =
  Ok (acc ++ match detection_record U d with Some r => [r] | None => [] end).
Proof.
  unfold loop_body. rewrite process_detection_record. cbn [mbind result_bind].
  destruct (detection_record U d); [reflexivity|].
  rewrite app_nil_r. reflexivity.
Qed.

Lemma for_each_loop_body preds acc :
  for_each (loop_body U) preds acc = Ok (acc ++ omap (detection_record U) preds).
Proof.
  revert acc. induction preds as [|d preds IH]; intros acc; simpl.
  - rewrite app_nil_r. reflexivity.
  - rewrite loop_body_record. cbn [mbind result_bind]. rewrite IH.
    destruct (detection_record U d); simpl; rewrite <- ?app_assoc, ?app_nil_r;
      reflexivity.
Qed.

Lemma detection_record_data d r :
  detection_record U d = Some r → record_data r = detection_data d.
Proof.
  unfold detection_record.
  destruct (parse U _) as [[p|]|]; intros [= <-]. reflexivity.
Qed.

Lemma detection_record_parses d :
  parses U (OcrResult.text (ocr d)) =
  match detection_record U d with Some _ => true | None => false end.
Proof.
  unfold parses, detection_record. destruct (parse U _) as [[p|]|]; reflexivity.
Qed.

Lemma omap_record_data preds :
  map record_data (omap (detection_record U) preds) =
  map detection_data
    (List.filter (λ d, parses U (OcrResult.text (ocr d))) preds).
Proof.
  induction preds as [|d preds IH]; [reflexivity|].
  cbn [omap list_omap List.filter]. rewrite detection_record_parses.
  destruct (detection_record U d) as [r|] eqn:E; [|exact IH].
  cbn [map]. fold (omap (detection_record U) preds).
  rewrite IH, (detection_record_data d r E). reflexivity.
Qed.
End FrameFacts.

(** C2.  [processDetection] normalizes and parses the raw text.  When
    parsing gives nothing, no record comes out.  When it gives a plate,
    exactly one record comes out: the raw text as it came, the formatted
    plate, the region code, the region information of that code, and the
    confidence and the bounding box as they came.  The two detections of
    the specification behave as it says. *)
Theorem processDetection_record :
  (∀ U (Conf BBox : Type) raw (conf : Conf) (box : BBox),
     (parse U (normalize U raw) = Ok None →
      processDetection U raw conf box = Ok None ∧
      process_alpr_results U [detection raw conf box] = Ok []) ∧
     (∀ p, parse U (normalize U raw) = Ok (Some p) →
           processDetection U raw conf box =
           Ok (Some {| original_text := raw;
                       formatted_plate := formatPlate p;
                       region_code := regionCode p;
                       region_info := resolveRegion (regionCode p);
                       confidence := conf;
                       bbox := box |}) ∧
           process_alpr_results U [detection raw conf box] =
           Ok [plate_record raw p conf box] ∧
           get_region_info (regionCode p) = Ok (resolveRegion (regionCode p)))) ∧
  (∀ U, processDetection U (str "d1234abc") (0.92)%Q [10; 20; 100; 50]%Z =
        Ok (Some {| original_text := str "d1234abc";
                    formatted_plate := str "D 1234 ABC";
                    region_code := str "D";
                    region_info := str "Bandung, Bandung Barat, Cimahi";
                    confidence := (0.92)%Q;
                    bbox := [10; 20; 100; 50]%Z |})) ∧
  (∀ U, processDetection U (str "###") (0.5)%Q [0; 0; 1; 1]%Z = Ok None).
Proof.
  split; [|split; intros U; vm_compute; reflexivity].
  intros U Conf BBox raw conf box.
  unfold processDetection, process_alpr_results.
  rewrite process_detection_record, for_each_loop_body.
  unfold detection_record, detection. cbn [ocr OcrResult.text omap list_omap].
  split.
  - intros ->. split; reflexivity.
  - intros p ->. split; [reflexivity|split; [reflexivity|]].
    apply get_region_info_resolve.
Qed.

Lemma processDetection_record_witness :
  processDetection unicode_fragment (str "B 12 cd") (0.5)%Q [0; 0; 1; 1]%Z =
  Ok (Some {| original_text := str "B 12 cd";
              formatted_plate := str "B 12 CD";
              region_code := str "B";
              region_info := resolveRegion (str "B");
              confidence := (0.5)%Q;
              bbox := [0; 0; 1; 1]%Z |}).
Proof.
  apply (proj2 (proj1 processDetection_record unicode_fragment Q (list Z)
                  (str "B 12 cd") (0.5)%Q [0; 0; 1; 1]%Z)
           {| regionCode := str "B"; number := str "12"; suffix := str "CD" |}).
  reflexivity.
Defined.

(** C5.  Whatever the text, the confidence, the bounding box and the
    region code, none of the operations raises: [normalize] is a total
    function to strings, and [parse], [extract_indonesian_plate_format],
    [get_region_info], [processDetection] and [process_alpr_results] return
    a value, which may be [None], the sentinel or the empty list. *)
Theorem core_never_raises U (Conf BBox : Type) (text c : pystr)
    (conf : Conf) (box : BBox) (preds : list (prediction Conf BBox)) :
  (∃ v, normalize U text = v) ∧
  (∃ v, parse U text = Ok v) ∧
  (∃ v, parse U (normalize U text) = Ok v) ∧
  (∃ v, extract_indonesian_plate_format U text = Ok v) ∧
  (∃ v, get_region_info c = Ok v) ∧
  (∃ v, processDetection U text conf box = Ok v) ∧
  (∃ v, process_alpr_results U preds = Ok v).
Proof.
  repeat split.
  - eauto.
  - apply parse_total.
  - apply parse_total.
  - destruct (extract_cases U text) as [H|[p H]]; eauto.
  - rewrite get_region_info_resolve. eauto.
  - unfold processDetection. rewrite process_detection_record. eauto.
  - unfold process_alpr_results. rewrite for_each_loop_body. eauto.
Qed.

(** C6.  [process_alpr_results] returns the records of the detections whose
    text parses, one for each, in the order of the detections: the texts,
    confidences and boxes of the records are those of the detections that
    parse, filtered in place. *)
Theorem process_alpr_results_ordered_filter U (Conf BBox : Type)
    (preds : list (prediction Conf BBox)) :
  ∃ recs,
    process_alpr_results U preds = Ok recs ∧
    recs = omap (detection_record U) preds ∧
    map record_data recs =
    map detection_data
      (List.filter (λ d, parses U (OcrResult.text (ocr d))) preds).
Proof.
  exists (omap (detection_record U) preds). split; [|split].
  - unfold process_alpr_results. rewrite for_each_loop_body. reflexivity.
  - reflexivity.
  - apply omap_record_data.
Qed.

(** * Further properties of the helper functions *)

(** ** What the cleaning step makes irrelevant *)

Lemma upper_cp_ascii_upper U c : upper_cp U (ascii_upper c) = upper_cp U c.
Proof.
  unfold upper_cp, is_ascii, ascii_upper, is_ascii_lower, in_range.
  cmp_cases.
Qed.

Lemma upper_ascii_upper U s : upper U (map ascii_upper s) = upper U s.
Proof.
  induction s as [|c s IH]; simpl; [reflexivity|].
  rewrite upper_cp_ascii_upper, IH. reflexivity.
Qed.

Lemma normalize_re_sub_spaces U s :
  normalize U (re_sub_spaces s) = normalize U s.
Proof.
  unfold normalize. induction s as [|c s IH]; simpl; [reflexivity|].
  rewrite re_sub_spaces_app. destruct (is_space c) eqn:E.
  - rewrite (upper_cp_space U c E). simpl. rewrite E. exact IH.
  - simpl. rewrite re_sub_spaces_app, IH. reflexivity.
Qed.

Lemma extract_of_normalize U s t :
  normalize U s = normalize U t →
  extract_indonesian_plate_format U s = extract_indonesian_plate_format U t.
Proof. intros H. rewrite !extract_as_parse, H. reflexivity. Qed.

(** X1.  Whitespace in the text does not matter: two texts that are equal
    once their whitespace is deleted get the same result, and so a text
    and the text without its whitespace do. *)
Theorem extract_ignores_whitespace U s t :
  re_sub_spaces s = re_sub_spaces t →
  extract_indonesian_plate_format U s = extract_indonesian_plate_format U t ∧
  extract_indonesian_plate_format U (re_sub_spaces s) =
  extract_indonesian_plate_format U s.
Proof.
  intros H. split; apply extract_of_normalize.
  - rewrite <- (normalize_re_sub_spaces U s), <- (normalize_re_sub_spaces U t), H.
    reflexivity.
  - apply normalize_re_sub_spaces.
Qed.

Lemma extract_ignores_whitespace_witness :
  extract_indonesian_plate_format unicode_fragment (str " D 1234  ABC ") =
  extract_indonesian_plate_format unicode_fragment (str "D1234 ABC").
Proof.
  apply (extract_ignores_whitespace unicode_fragment
           (str " D 1234  ABC ") (str "D1234 ABC")).
  reflexivity.
Defined.

(** X2.  The case of ASCII letters does not matter: two texts that are
    equal once their ASCII letters are put in upper case get the same
    result. *)
Theorem extract_ignores_ascii_case U s t :
  map ascii_upper s = map ascii_upper t →
  extract_indonesian_plate_format U s = extract_indonesian_plate_format U t.
Proof.
  intros H. apply extract_of_normalize. unfold normalize.
  rewrite <- (upper_ascii_upper U s), <- (upper_ascii_upper U t), H.
  reflexivity.
Qed.

Lemma extract_ignores_ascii_case_witness :
  extract_indonesian_plate_format unicode_fragment (str "d 1234 aBc") =
  extract_indonesian_plate_format unicode_fragment (str "D 1234 Abc").
Proof.
  apply (extract_ignores_ascii_case unicode_fragment
           (str "d 1234 aBc") (str "D 1234 Abc")).
  reflexivity.
Defined.

(** ** What an accepted text looks like *)

Lemma extract_inv U text fp rc :
  extract_indonesian_plate_format U text = Ok (Some fp, Some rc) →
  ∃ p, parse U (normalize U text) = Ok (Some p) ∧
       fp = formatPlate p ∧ rc = regionCode p.
Proof.
  rewrite extract_as_parse.
  destruct (parse_cases U (normalize U text))
    as [[-> _]|(r & n & x & t & _ & _ & _ & ->)]; [discriminate|].
  intros [= <- <-]. eauto.
Qed.

Lemma extract_accepts U text p :
  parse U (normalize U text) = Ok (Some p) →
  extract_indonesian_plate_format U text =
  Ok (Some (formatPlate p), Some (regionCode p)).
Proof. intros H. rewrite extract_as_parse, H. reflexivity. Qed.

Lemma extract_rejects U text :
  (∀ p, parse U (normalize U text) ≠ Ok (Some p)) →
  extract_indonesian_plate_format U text = Ok (None, None).
Proof.
  intros H. destruct (extract_cases U text) as [E|[p E]]; [exact E|].
  apply extract_inv in E as (q & Hq & _). destruct (H q Hq).
Qed.

Lemma normalize_split U text p :
  parse U (normalize U text) = Ok (Some p) →
  normalize U text = regionCode p ++ number p ++ suffix p ∧
  plate_split U (regionCode p) (number p) (suffix p).
Proof. apply parse_inv_ws_free, normalize_whitespace_free. Qed.

(** X3.  When a text is accepted, its cleaned form is the region code,
    the number and the suffix one after the other and the formatted plate
    is the same three parts with a single space between them; the cleaned
    form has three to nine characters and the formatted plate two more.
    So a text whose cleaned form is shorter than three characters (the
    empty text, a text of whitespace) or longer than nine is rejected. *)
Theorem extract_result_shape U text :
  (∀ fp rc,
     extract_indonesian_plate_format U text = Ok (Some fp, Some rc) →
     ∃ n x, plate_split U rc n x ∧
            normalize U text = rc ++ n ++ x ∧
            fp = rc ++ str " " ++ n ++ str " " ++ x ∧
            3 ≤ length (normalize U text) ≤ 9 ∧
            length fp = length (normalize U text) + 2) ∧
  (length (normalize U text) < 3 ∨ 9 < length (normalize U text) →
   extract_indonesian_plate_format U text = Ok (None, None)).
Proof.
  assert (Hlen : ∀ p, parse U (normalize U text) = Ok (Some p) →
                      3 ≤ length (normalize U text) ≤ 9).
  { intros p Hp. apply normalize_split in Hp as [-> (Hr & _ & Hn & _ & Hx & _)].
    rewrite !length_app. lia. }
  split.
  - intros fp rc H. apply extract_inv in H as (p & Hp & -> & ->).
    exists (number p), (suffix p).
    pose proof (Hlen p Hp) as Hl.
    apply normalize_split in Hp as [Hs Hsp].
    split; [exact Hsp|]. split; [exact Hs|]. split; [reflexivity|].
    split; [exact Hl|]. rewrite Hs. unfold formatPlate.
    rewrite !length_app. simpl. lia.
  - intros Hout. apply extract_rejects. intros p Hp. apply Hlen in Hp. lia.
Qed.

Lemma extract_result_shape_witness :
  extract_indonesian_plate_format unicode_fragment (str "D 1234 ABCDE") =
  Ok (None, None).
Proof.
  apply (proj2 (extract_result_shape unicode_fragment (str "D 1234 ABCDE"))).
  right. vm_compute. lia.
Defined.

(** X4.  A text is rejected as soon as its cleaned form holds one
    character that is neither a letter of [A-Z] nor a digit: punctuation
    and letters outside ASCII pass the cleaning step and stop the match. *)
Theorem extract_rejects_other_characters U text c :
  c ∈ normalize U text →
  is_ascii_upper c = false → is_digit U c = false →
  extract_indonesian_plate_format U text = Ok (None, None).
Proof.
  intros Hin Hu Hd. apply extract_rejects. intros p Hp.
  apply normalize_split in Hp as [Hs (_ & Hru & _ & Hnd & _ & Hxu)].
  rewrite Hs in Hin. rewrite !elem_of_app in Hin.
  rewrite !forallb_forall in Hru, Hnd, Hxu.
  destruct Hin as [Hin|[Hin|Hin]]; apply list_elem_of_In in Hin.
  - rewrite (Hru c Hin) in Hu. discriminate.
  - rewrite (Hnd c Hin) in Hd. discriminate.
  - rewrite (Hxu c Hin) in Hu. discriminate.
Qed.

Lemma extract_rejects_other_characters_witness :
  extract_indonesian_plate_format unicode_fragment (str "D-1234-ABC") =
  Ok (None, None).
Proof.
  apply (extract_rejects_other_characters unicode_fragment (str "D-1234-ABC") 45%N);
    [|reflexivity|reflexivity].
  apply (bool_decide_unpack _). vm_compute. exact I.
Defined.

(** X5.  The formatted plate is a fixed point: given back as text, it is
    accepted with the same formatted plate and the same region code. *)
Theorem extract_fixes_formatted_plate U text fp rc :
  extract_indonesian_plate_format U text = Ok (Some fp, Some rc) →
  extract_indonesian_plate_format U fp = Ok (Some fp, Some rc).
Proof.
  intros H. apply extract_inv in H as (p & Hp & -> & ->).
  apply extract_accepts.
  rewrite (roundtrip_whitespace_free U _ p (normalize_whitespace_free U text) Hp).
  exact Hp.
Qed.

Lemma extract_fixes_formatted_plate_witness :
  extract_indonesian_plate_format unicode_fragment (str "D 1234 ABC") =
  Ok (Some (str "D 1234 ABC"), Some (str "D")).
Proof.
  apply (extract_fixes_formatted_plate unicode_fragment (str " d1234 abc")).
  reflexivity.
Defined.

(** X6.  Two accepted texts have the same formatted plate exactly when
    they have the same cleaned form, and then the same region code: the
    formatted plate loses nothing of the cleaned text. *)
Theorem formatted_plate_determines_clean_text U s t fs rs ft rt :
  extract_indonesian_plate_format U s = Ok (Some fs, Some rs) →
  extract_indonesian_plate_format U t = Ok (Some ft, Some rt) →
  (fs = ft ↔ normalize U s = normalize U t) ∧ (fs = ft → rs = rt).
Proof.
  intros Hs Ht.
  apply extract_inv in Hs as (p & Hp & -> & ->).
  apply extract_inv in Ht as (q & Hq & -> & ->).
  assert (Hto : formatPlate p = formatPlate q → normalize U s = normalize U t).
  { intros E.
    rewrite <- (roundtrip_whitespace_free U _ p (normalize_whitespace_free U s) Hp).
    rewrite <- (roundtrip_whitespace_free U _ q (normalize_whitespace_free U t) Hq).
    rewrite E. reflexivity. }
  assert (Hfrom : normalize U s = normalize U t → p = q).
  { intros E. rewrite E in Hp. rewrite Hp in Hq. injection Hq as ->. reflexivity. }
  split; [split|].
  - exact Hto.
  - intros E. rewrite (Hfrom E). reflexivity.
  - intros E. rewrite (Hfrom (Hto E)). reflexivity.
Qed.

Lemma formatted_plate_determines_clean_text_witness :
  str "D 1234 ABC" = str "D 1234 ABC" ↔
  normalize unicode_fragment (str "d1234abc") =
  normalize unicode_fragment (str " D 1234 ABC ").
Proof.
  apply (formatted_plate_determines_clean_text unicode_fragment
           (str "d1234abc") (str " D 1234 ABC ")
           (str "D 1234 ABC") (str "D") (str "D 1234 ABC") (str "D"));
    reflexivity.
Defined.

(** ** The table of region codes *)

Lemma cityCode_values_not_sentinel :
  Forall (λ kv : pystr * region_value,
            match kv.2 with
            | Single name => name
            | Multiple names => join (str ", ") names
            end ≠ sentinel) cityCode_entries.
Proof. apply (bool_decide_unpack _). vm_compute. exact I. Qed.

Lemma cityCode_keys_shape :
  Forall (λ k : pystr, 1 ≤ length k ≤ 2 ∧ forallb is_ascii_upper k = true)
         (cityCode_entries.*1).
Proof. apply (bool_decide_unpack _). vm_compute. exact I. Qed.

Lemma get_region_info_sentinel c :
  get_region_info c = Ok sentinel ↔ c ∉ cityCode_entries.*1.
Proof.
  rewrite get_region_info_resolve. unfold resolveRegion.
  rewrite (not_elem_of_list_to_map (M := gmap pystr)). fold cityCode_dict.
  destruct (cityCode_dict !! c) as [v|] eqn:E; [|split; reflexivity].
  apply cityCode_dict_entries in E.
  pose proof (proj1 (Forall_forall _ _) cityCode_values_not_sentinel _ E) as Hv.
  simpl in Hv. split; [|discriminate].
  intros [= H]. destruct v; destruct (Hv H).
Qed.

(** X7.  The sentinel tells a missing code from a known one: it is
    returned exactly for the codes that are not keys of the table, since
    no region of the table is rendered as the sentinel text. *)
Theorem get_region_info_sentinel_iff_unknown c :
  (get_region_info c = Ok sentinel ↔ c ∉ cityCode_entries.*1) ∧
  (c ∈ cityCode_entries.*1 ↔
   ∃ info, get_region_info c = Ok info ∧ info ≠ sentinel).
Proof.
  split; [apply get_region_info_sentinel|]. split.
  - intros Hin. exists (resolveRegion c). split; [apply get_region_info_resolve|].
    intros E. apply (proj1 (get_region_info_sentinel c)); [|exact Hin].
    rewrite get_region_info_resolve, E. reflexivity.
  - intros (info & Hi & Hne).
    destruct (decide (c ∈ cityCode_entries.*1)) as [Hin|Hout]; [exact Hin|].
    apply get_region_info_sentinel in Hout. congruence.
Qed.

(** X8.  The lookup is exact on the upper-case codes of the table: a code
    that is empty, longer than two characters, or holds a character that
    is not a letter of [A-Z] (a lower-case code, say) resolves to the
    sentinel. *)
Theorem get_region_info_needs_upper_case_code c :
  length c = 0 ∨ 2 < length c ∨ forallb is_ascii_upper c = false →
  get_region_info c = Ok sentinel.
Proof.
  intros H. apply get_region_info_sentinel. intros Hin.
  pose proof (proj1 (Forall_forall _ _) cityCode_keys_shape _ Hin) as [Hl Hu].
  simpl in Hl, Hu. destruct H as [H|[H|H]]; [lia|lia|congruence].
Qed.

Lemma get_region_info_needs_upper_case_code_witness :
  get_region_info (str "dk") = Ok sentinel.
Proof.
  apply get_region_info_needs_upper_case_code. right. right. reflexivity.
Defined.

(** ** The loop over the detections *)

(** X9.  Detections are handled one by one: the records of a list of
    detections followed by another are the records of the first followed
    by the records of the second. *)
Theorem process_alpr_results_app U (Conf BBox : Type)
    (a b : list (prediction Conf BBox)) :
  process_alpr_results U (a ++ b) =
  ra ← process_alpr_results U a;
  rb ← process_alpr_results U b;
  Ok (ra ++ rb).
Proof.
  unfold process_alpr_results. rewrite !for_each_loop_body.
  cbn [mbind result_bind]. rewrite omap_app. reflexivity.
Qed.

(** X10.  Every record of the result can be checked against the helper
    functions on its own: its formatted plate and region code are what
    [extract_indonesian_plate_format] returns for its original text, its
    region information is what [get_region_info] returns for its region
    code, and its text, confidence and box are those of one of the
    detections. *)
Theorem process_alpr_results_records U (Conf BBox : Type)
    (preds : list (prediction Conf BBox)) recs :
  process_alpr_results U preds = Ok recs →
  ∀ r, r ∈ recs →
    extract_indonesian_plate_format U (original_text r) =
      Ok (Some (formatted_plate r), Some (region_code r)) ∧
    get_region_info (region_code r) = Ok (region_info r) ∧
    ∃ d, d ∈ preds ∧ detection_data d = record_data r.
Proof.
  unfold process_alpr_results. rewrite for_each_loop_body. intros [= <-] r Hr.
  apply list_elem_of_omap in Hr as (d & Hd & Hrec).
  pose proof (detection_record_data U d r Hrec) as Hdata.
  unfold detection_record in Hrec.
  destruct (parse U (normalize U (OcrResult.text (ocr d)))) as [[p|]|] eqn:Hp;
    try discriminate.
  injection Hrec as <-. cbn [plate_record original_text formatted_plate region_code
                               region_info].
  split; [apply extract_accepts, Hp|]. split; [apply get_region_info_resolve|].
  exists d. split; [exact Hd|]. symmetry. exact Hdata.
Qed.

Lemma process_alpr_results_records_witness :
  get_region_info (region_code (plate_record (str "b 12 cd")
    {| regionCode := str "B"; number := str "12"; suffix := str "CD" |}
    (0.5)%Q [0; 0; 1; 1]%Z)) =
  Ok (region_info (plate_record (str "b 12 cd")
    {| regionCode := str "B"; number := str "12"; suffix := str "CD" |}
    (0.5)%Q [0; 0; 1; 1]%Z)).
Proof.
  apply (process_alpr_results_records unicode_fragment Q (list Z)
           [detection (str "###") (0.1)%Q [5; 5; 6; 6]%Z;
            detection (str "b 12 cd") (0.5)%Q [0; 0; 1; 1]%Z]
           [plate_record (str "b 12 cd")
              {| regionCode := str "B"; number := str "12"; suffix := str "CD" |}
              (0.5)%Q [0; 0; 1; 1]%Z]).
  - reflexivity.
  - apply list_elem_of_here.
Defined.

(** ** The annotation loop *)

(** X11.  The unpacking of a box into [x1, y1, x2, y2] succeeds exactly on
    a box of four values that [int] converts, and gives their integer
    values.  A box of fewer values that convert raises "not enough values"
    with their number; a box of more than four raises "too many values"
    when its first five convert.  The values after the fifth are never
    looked at. *)
Theorem unpack4_cases {Num : Type} (py_int : Num → option Z) (vs : list Num) :
  (∀ x1 y1 x2 y2,
     unpack4 py_int vs = inr (x1, y1, x2, y2) ↔
     ∃ a b c d, vs = [a; b; c; d] ∧ py_int a = Some x1 ∧ py_int b = Some y1 ∧
                py_int c = Some x2 ∧ py_int d = Some y2) ∧
  (length vs < 4 → Forall (λ v, is_Some (py_int v)) vs →
   unpack4 py_int vs = inl (NotEnoughValues (length vs))) ∧
  (4 < length vs → Forall (λ v, is_Some (py_int v)) (take 5 vs) →
   unpack4 py_int vs = inl TooManyValues) ∧
  unpack4 py_int vs = unpack4 py_int (take 5 vs).
Proof.
  split; [|split; [|split]].
  - intros x1 y1 x2 y2. split.
    + unfold unpack4.
      destruct vs as [|a [|b [|c [|d [|e vs]]]]]; try discriminate;
        repeat match goal with
          | |- context [py_int ?v] => destruct (py_int v) eqn:?
          end; try discriminate.
      intros [= <- <- <- <-]. exists a, b, c, d. auto.
    + intros (a & b & c & d & -> & Ha & Hb & Hc & Hd).
      simpl. rewrite Ha, Hb, Hc, Hd. reflexivity.
  - intros Hl Hall.
    destruct vs as [|a [|b [|c [|d vs]]]]; simpl in Hl; try lia;
      repeat match goal with
        | H : Forall _ (_ :: _) |- _ => apply Forall_cons in H as [[? ?] H]
        end; simpl;
      repeat match goal with H : py_int _ = Some _ |- _ => rewrite H end;
      reflexivity.
  - intros Hl Hall.
    destruct vs as [|a [|b [|c [|d [|e vs]]]]]; simpl in Hl; try lia.
    simpl in Hall.
    repeat match goal with
      | H : Forall _ (_ :: _) |- _ => apply Forall_cons in H as [[? ?] H]
      end; simpl.
    repeat match goal with H : py_int _ = Some _ |- _ => rewrite H end.
    reflexivity.
  - destruct vs as [|a [|b [|c [|d [|e vs]]]]]; reflexivity.
Qed.

Lemma unpack4_cases_witness :
  unpack4 (λ z : Z, Some z) [10; 20; 100]%Z = inl (NotEnoughValues 3).
Proof.
  apply (proj1 (proj2 (unpack4_cases (λ z : Z, Some z) [10; 20; 100]%Z))).
  - simpl. lia.
  - repeat constructor; eexists; reflexivity.
Defined.


Lemma plate_calls_length box label : length (plate_calls box label) = 3.
Proof. destruct box as [[[x1 y1] x2] y2]. reflexivity. Qed.

Lemma plate_calls_texts box label : texts_drawn (plate_calls box label) = [label].
Proof. destruct box as [[[x1 y1] x2] y2]. reflexivity. Qed.

Lemma plate_calls_boxes box label : boxes_drawn (plate_calls box label) = [box].
Proof. destruct box as [[[x1 y1] x2] y2]. reflexivity. Qed.

Section AnnotationFacts.
Context {Conf Num Frame Exn : Type}.
Context (py_int : Num → option Z) (cv2 : Frame → draw_call → Frame * option Exn).
Implicit Types (plate bad : plate_info Conf (list Num))
  (plates good rest : list (plate_info Conf (list Num)))
  (frame : Frame) (made todo : list draw_call).

Lemma run_calls_inv todo frame made f cs err :
  run_calls cv2 frame todo made = (f, cs, err) →
  ∃ k, k ≤ length todo ∧ cs = made ++ take k todo ∧
       (err = None → k = length todo) ∧ (err ≠ None → k < length todo).
Proof.
  revert frame made. induction todo as [|c todo IH]; intros frame made; simpl.
  - intros [= <- <- <-]. exists 0. rewrite app_nil_r.
    repeat split; [lia|congruence].
  - destruct (cv2 frame c) as [frame' [e|]].
    + intros [= <- <- <-]. exists 0. simpl. rewrite app_nil_r.
      repeat split; [lia|discriminate|lia].
    + intros H. apply IH in H as (k & Hk & -> & Hn & Hs).
      exists (S k). simpl. rewrite <- app_assoc.
      repeat split; [lia| |]; intros H; [apply Hn in H|apply Hs in H]; lia.
Qed.

Lemma run_calls_returns todo frame made :
  (∀ f c, (cv2 f c).2 = None) →
  ∃ f, run_calls cv2 frame todo made = (f, made ++ todo, None).
Proof.
  intros Hret. revert frame made.
  induction todo as [|c todo IH]; intros frame made; simpl.
  - exists frame. rewrite app_nil_r. reflexivity.
  - specialize (Hret frame c). destruct (cv2 frame c) as [frame' o].
    simpl in Hret. subst o. destruct (IH frame' (made ++ [c])) as [f Hf].
    exists f. rewrite Hf, <- app_assoc. reflexivity.
Qed.

(** The loop on a list followed by another is the loop on the first and,
    if that ends without an exception, the loop on the second. *)
Lemma annotate_app good rest frame made :
  annotate py_int cv2 (good ++ rest) frame made =
  match annotate py_int cv2 good frame made with
  | (f, cs, None) => annotate py_int cv2 rest f cs
  | r => r
  end.
Proof.
  revert frame made. induction good as [|plate good IH]; intros frame made;
    simpl; [reflexivity|].
  destruct (unpack4 py_int (bbox plate)) as [e|box]; [reflexivity|].
  destruct (run_calls cv2 frame (plate_calls box (label_of plate)) made)
    as [[f cs] [e|]]; [reflexivity|apply IH].
Qed.

Lemma annotate_ok_inv plates frame made f cs :
  annotate py_int cv2 plates frame made = (f, cs, None) →
  ∃ new, cs = made ++ new ∧
         length new = 3 * length plates ∧
         texts_drawn new = map label_of plates ∧
         Forall2 (λ box plate, unpack4 py_int (bbox plate) = inr box)
                 (boxes_drawn new) plates.
Proof.
  revert frame made. induction plates as [|plate rest IH]; intros frame made;
    simpl.
  - intros [= <- <-]. exists []. rewrite app_nil_r. repeat split. constructor.
  - destruct (unpack4 py_int (bbox plate)) as [e|box] eqn:Hb; [discriminate|].
    destruct (run_calls cv2 frame (plate_calls box (label_of plate)) made)
      as [[f1 cs1] [e|]] eqn:Hr; [discriminate|].
    apply run_calls_inv in Hr as (k & _ & -> & Hk & _).
    rewrite (Hk eq_refl), firstn_all. intros H.
    apply IH in H as (new & -> & Hlen & Htxt & Hbox).
    exists (plate_calls box (label_of plate) ++ new).
    rewrite <- app_assoc. split; [reflexivity|].
    rewrite length_app, plate_calls_length. split; [lia|].
    unfold texts_drawn, boxes_drawn in *. rewrite !omap_app.
    fold (texts_drawn (plate_calls box (label_of plate))).
    fold (boxes_drawn (plate_calls box (label_of plate))).
    rewrite plate_calls_texts, plate_calls_boxes, Htxt. split; [reflexivity|].
    constructor; [exact Hb|exact Hbox].
Qed.

Lemma annotate_returns plates frame made :
  Forall (λ plate, ∃ box, unpack4 py_int (bbox plate) = inr box) plates →
  (∀ f c, (cv2 f c).2 = None) →
  ∃ f cs, annotate py_int cv2 plates frame made = (f, cs, None).
Proof.
  intros Hall Hret. revert frame made.
  induction Hall as [|plate rest [box Hb] _ IH]; intros frame made; simpl.
  - eauto.
  - rewrite Hb.
    destruct (run_calls_returns (plate_calls box (label_of plate)) frame made Hret)
      as [f1 ->].
    apply IH.
Qed.

Lemma annotate_exception plates frame made f cs ex :
  annotate py_int cv2 plates frame made = (f, cs, Some ex) →
  ∃ good bad rest f0 cs0,
    plates = good ++ bad :: rest ∧
    annotate py_int cv2 good frame made = (f0, cs0, None) ∧
    ((∃ e, ex = UnpackError e ∧ unpack4 py_int (bbox bad) = inl e ∧
           f = f0 ∧ cs = cs0) ∨
     (∃ e box k, ex = DrawError e ∧ unpack4 py_int (bbox bad) = inr box ∧
                 k < 3 ∧
                 cs = cs0 ++ take k (plate_calls box (label_of bad)) ∧
                 run_calls cv2 f0 (plate_calls box (label_of bad)) cs0 =
                 (f, cs, Some e))).
Proof.
  revert frame made. induction plates as [|plate rest IH]; intros frame made;
    simpl; [discriminate|].
  destruct (unpack4 py_int (bbox plate)) as [e|box] eqn:Hb.
  - intros [= <- <- <-]. exists [], plate, rest, frame, made.
    split; [reflexivity|]. split; [reflexivity|]. left. eauto.
  - destruct (run_calls cv2 frame (plate_calls box (label_of plate)) made)
      as [[f1 cs1] [e|]] eqn:Hr.
    + intros [= <- <- <-]. exists [], plate, rest, frame, made.
      split; [reflexivity|]. split; [reflexivity|]. right.
      pose proof Hr as Hr'.
      apply run_calls_inv in Hr' as (k & _ & Hcs & _ & Hk).
      rewrite plate_calls_length in Hk.
      exists e, box, k. repeat split; try assumption. apply Hk. discriminate.
    + intros H. apply IH in H
        as (good & bad & rest' & f0 & cs0 & -> & Hgood & Hcase).
      exists (plate :: good), bad, rest', f0, cs0.
      split; [reflexivity|]. split; [|exact Hcase].
      simpl. rewrite Hb, Hr. exact Hgood.
Qed.
End AnnotationFacts.

(** X12.  Whatever the drawing library does: when the loop ends without
    an exception, the box of every record has unpacked and the loop has
    made three calls for each record, outlining the boxes of the records
    and writing their labels, in the order of the records.  The loop does
    end without an exception when the box of every record unpacks and the
    library returns from every call.  When the loop ends with an
    exception, it is at the first record whose box does not unpack or on
    which a call of the library raises: the records before it have their
    three calls each, that record has none if its box does not unpack and
    fewer than three if a call raised, and the records after it have
    none. *)
Theorem annotate_draws_until_exception {Conf Num Frame Exn : Type}
    (py_int : Num → option Z) (cv2 : Frame → draw_call → Frame * option Exn)
    (plates : list (plate_info Conf (list Num))) (frame : Frame) :
  (∀ f cs, annotate py_int cv2 plates frame [] = (f, cs, None) →
     length cs = 3 * length plates ∧
     texts_drawn cs = map label_of plates ∧
     Forall2 (λ box plate, unpack4 py_int (bbox plate) = inr box)
             (boxes_drawn cs) plates) ∧
  (Forall (λ plate, ∃ box, unpack4 py_int (bbox plate) = inr box) plates →
   (∀ f c, (cv2 f c).2 = None) →
   ∃ f cs, annotate py_int cv2 plates frame [] = (f, cs, None)) ∧
  (∀ f cs ex, annotate py_int cv2 plates frame [] = (f, cs, Some ex) →
     ∃ good bad rest f0 cs0,
       plates = good ++ bad :: rest ∧
       annotate py_int cv2 good frame [] = (f0, cs0, None) ∧
       length cs0 = 3 * length good ∧
       ((∃ e, ex = UnpackError e ∧ unpack4 py_int (bbox bad) = inl e ∧
              f = f0 ∧ cs = cs0) ∨
        (∃ e box k, ex = DrawError e ∧ unpack4 py_int (bbox bad) = inr box ∧
                    k < 3 ∧
                    cs = cs0 ++ take k (plate_calls box (label_of bad)) ∧
                    run_calls cv2 f0 (plate_calls box (label_of bad)) cs0 =
                    (f, cs, Some e)))).
Proof.
  split; [|split].
  - intros f cs H. apply annotate_ok_inv in H as (new & -> & Hl & Ht & Hb).
    auto.
  - apply annotate_returns.
  - intros f cs ex H.
    apply annotate_exception in H
      as (good & bad & rest & f0 & cs0 & Hp & Hgood & Hcase).
    exists good, bad, rest, f0, cs0. split; [exact Hp|]. split; [exact Hgood|].
    split; [|exact Hcase].
    apply annotate_ok_inv in Hgood as (new & -> & Hl & _). exact Hl.
Qed.

Lemma annotate_draws_until_exception_witness :
  ∃ f cs,
    annotate (λ z : Z, Some z) (λ (n : nat) (c : draw_call), (S n, @None unit))
      [plate_record (str "b 12 cd")
         {| regionCode := str "B"; number := str "12"; suffix := str "CD" |}
         (0.5)%Q [0; 0; 1; 1]%Z] 0 [] = (f, cs, None).
Proof.
  apply (proj1 (proj2 (annotate_draws_until_exception (λ z : Z, Some z)
           (λ (n : nat) (c : draw_call), (S n, @None unit))
           [plate_record (str "b 12 cd")
              {| regionCode := str "B"; number := str "12"; suffix := str "CD" |}
              (0.5)%Q [0; 0; 1; 1]%Z] 0))).
  - repeat constructor. eexists. reflexivity.
  - reflexivity.
Defined.

(** X13.  From the detections to the drawing, whatever the drawing
    library does.  When the loop run on the result of
    [process_alpr_results] ends without an exception, it has made three
    calls for each detection whose text parses and has written the labels
    of the records in the order of the detections.  It does end without
    an exception when the box of every detection whose text parses
    unpacks and the library returns from every call.  An exception of the
    unpacking can only come from the box of a detection whose text
    parses: the boxes of the other detections play no part. *)
Theorem annotate_process_alpr_results U {Conf Num Frame Exn : Type}
    (py_int : Num → option Z) (cv2 : Frame → draw_call → Frame * option Exn)
    (preds : list (prediction Conf (list Num))) recs (frame : Frame) :
  process_alpr_results U preds = Ok recs →
  (∀ f cs, annotate py_int cv2 recs frame [] = (f, cs, None) →
     length cs =
       3 * length (List.filter (λ d, parses U (OcrResult.text (ocr d))) preds) ∧
     texts_drawn cs = map label_of recs) ∧
  ((∀ d, d ∈ preds → parses U (OcrResult.text (ocr d)) = true →
         ∃ box, unpack4 py_int (bbox_xyxy d) = inr box) →
   (∀ f c, (cv2 f c).2 = None) →
   ∃ f cs, annotate py_int cv2 recs frame [] = (f, cs, None)) ∧
  (∀ f cs e, annotate py_int cv2 recs frame [] = (f, cs, Some (UnpackError e)) →
     ∃ d, d ∈ preds ∧ parses U (OcrResult.text (ocr d)) = true ∧
          unpack4 py_int (bbox_xyxy d) = inl e).
Proof.
  unfold process_alpr_results. rewrite for_each_loop_body. intros [= <-].
  assert (Hrec : ∀ r, r ∈ omap (detection_record U) preds →
            ∃ d, d ∈ preds ∧ parses U (OcrResult.text (ocr d)) = true ∧
                 bbox r = bbox_xyxy d).
  { intros r Hr. apply list_elem_of_omap in Hr as (d & Hd & Hr).
    pose proof (detection_record_data U d r Hr) as Hdata.
    injection Hdata as _ _ Hb. exists d. split; [exact Hd|]. split; [|exact Hb].
    rewrite detection_record_parses, Hr. reflexivity. }
  split; [|split].
  - intros f cs H. apply annotate_ok_inv in H as (new & -> & Hl & Ht & _).
    split; [|exact Ht].
    pose proof (f_equal length (omap_record_data U preds)) as Hlen.
    rewrite !length_map in Hlen. simpl app. rewrite Hl, Hlen. reflexivity.
  - intros Hbox Hret. apply annotate_returns; [|exact Hret].
    apply Forall_forall. intros r Hr.
    destruct (Hrec r Hr) as (d & Hd & Hp & ->). apply Hbox; assumption.
  - intros f cs e H.
    apply annotate_exception in H
      as (good & bad & rest & f0 & cs0 & Hp & _ & Hcase).
    destruct (Hrec bad) as (d & Hd & Hpar & Hb).
    { rewrite Hp. apply elem_of_app. right. apply list_elem_of_here. }
    exists d. split; [exact Hd|]. split; [exact Hpar|]. rewrite <- Hb.
    destruct Hcase as [(e' & [= <-] & He & _)|(e' & box & k & He & _)];
      [exact He|discriminate].
Qed.

Lemma annotate_process_alpr_results_witness :
  ∃ f cs,
    annotate (λ z : Z, Some z) (λ (n : nat) (c : draw_call), (S n, @None unit))
      [plate_record (str "b 12 cd")
         {| regionCode := str "B"; number := str "12"; suffix := str "CD" |}
         (0.5)%Q [0; 0; 1; 1]%Z] 0 [] = (f, cs, None).
Proof.
  apply (proj1 (proj2 (annotate_process_alpr_results unicode_fragment
           (λ z : Z, Some z) (λ (n : nat) (c : draw_call), (S n, @None unit))
           [detection (str "###") (0.1)%Q [5; 5; 6]%Z;
            detection (str "b 12 cd") (0.5)%Q [0; 0; 1; 1]%Z]
           [plate_record (str "b 12 cd")
              {| regionCode := str "B"; number := str "12"; suffix := str "CD" |}
              (0.5)%Q [0; 0; 1; 1]%Z] 0 eq_refl))).
  - intros d Hd Hp.
    apply list_elem_of_In in Hd. simpl in Hd.
    destruct Hd as [<-|[<-|[]]].
    + vm_compute in Hp. discriminate.
    + eexists. reflexivity.
  - reflexivity.
Defined.
